(** * Subscription_Recovery: the recurrence-hike engine

    A shallow embedding of [find_subscription_leeches] and
    [SubscriptionTools.analyze_transactions] from
    [Subscription_Recovery/Subscription_Recovery.py], together with the part
    of pandas they call: column access, [to_datetime], the two-key
    [sort_values], [duplicated(keep=False)], [groupby(...)[...].diff()],
    boolean indexing, [empty] and [to_json(orient='records')].

    Conventions of the model.
    - A float64 is an IEEE 754 binary64 ([spec_float] at precision 53):
      the conversion of an int64 amount and the subtraction of [diff] round
      to nearest, ties to even, and overflow to an infinity.  [NaN] is the
      float not-a-number that pandas uses as its missing marker.
    - A text entry records the dtype of its column: [Str] in a column of
      the [str] dtype (what [read_csv] gives a text column since pandas 3),
      [Obj] in an [object] column (what it gave before).  A frame carries
      the labels of its [str] columns, because arithmetic on such a column
      is refused whatever its rows.
    - [to_datetime] can read the clock (for the words [now] and [today],
      for a time of day without a date): the date parser is given the
      reading of the clock of the run.
    - What pandas does with the bytes of a file, with the text of a date and
      with the digits of a number is taken as given: [read_table],
      [parse_datetime], [json_double] and [json_string] are variables of the
      section that defines the engine. *)

From Stdlib Require Import List String Ascii Bool Arith ZArith QArith Qround Lia.
From Stdlib Require Import Sorting.Sorted Sorting.Permutation.
From Stdlib Require Import Numbers.DecimalString.
From Stdlib Require Import Floats.SpecFloat.
Import ListNotations.

Local Close Scope Q_scope.
Local Open Scope list_scope.
Local Open Scope string_scope.

(** ** Python exceptions and the error monad *)

Inductive exn : Type :=
| KeyError (key : string)
| ValueError (msg : string)
| TypeError (msg : string)
| OSError (msg : string).

(** [str(e)]: a [KeyError] prints the repr of its key, the others their
    message. *)
Definition str (e : exn) : string :=
  match e with
  | KeyError key => "'" ++ key ++ "'"
  | ValueError msg | TypeError msg | OSError msg => msg
  end.

Inductive result (A : Type) : Type :=
| Ok (a : A)
| Raise (e : exn).

Arguments Ok {A} a.
Arguments Raise {A} e.

Definition bind {A B : Type} (m : result A) (k : A -> result B) : result B :=
  match m with
  | Ok a => k a
  | Raise e => Raise e
  end.

Declare Scope py_scope.
Delimit Scope py_scope with py.
Notation "x <- m ;; k" := (bind m (fun x => k))
  (at level 61, m at next level, right associativity) : py_scope.

Local Open Scope py_scope.

(** Evaluate [f] on every element, left to right, stopping at the first
    exception. *)
Fixpoint traverse {A B : Type} (f : A -> result B) (l : list A)
  : result (list B) :=
  match l with
  | [] => Ok []
  | a :: l' => b <- f a ;; bs <- traverse f l' ;; Ok (b :: bs)
  end.

(** ** Cell values *)

(** IEEE 754 binary64. *)
Definition float64 : Type := spec_float.

Definition NaN : float64 := S754_nan.

(** The double nearest to an integer (ties to even): what numpy's cast of
    an int64 to float64 gives. *)
Definition double_of_Z (z : Z) : float64 := binary_normalize 53 1024 z 0 false.

(** The exact value of a finite double. *)
Definition Q_of_float (x : float64) : option Q :=
  match x with
  | S754_zero _ => Some 0%Q
  | S754_finite s m (Zneg p) =>
      Some (Qmake (cond_Zopp s (Zpos m)) (2 ^ p)%positive)
  | S754_finite s m e => Some (inject_Z (cond_Zopp s (Zpos m) * 2 ^ e))
  | S754_infinity _ | S754_nan => None
  end.

Inductive value : Type :=
| Int (z : Z)            (* entry of an int64 column *)
| Float (x : float64)    (* entry of a float64 column; NaN also marks a
                            missing entry of a text column *)
| Str (s : string)       (* text entry of a str column *)
| Obj (s : string)       (* text entry of an object column *)
| Timestamp (ns : Z)     (* datetime64[ns]: nanoseconds since the epoch *)
| NaT.                   (* missing timestamp *)

Definition isna (v : value) : bool :=
  match v with
  | Float S754_nan | NaT => true
  | _ => false
  end.

(** The exact value of a finite number. *)
Definition number (v : value) : option Q :=
  match v with
  | Int z => Some (inject_Z z)
  | Float x => Q_of_float x
  | _ => None
  end.

Definition is_str (v : value) : bool :=
  match v with
  | Str _ => true
  | _ => false
  end.

(** Kinds of values in the order pandas gives them in a sort key: numbers
    (the infinities at their ends) before text, missing values last
    ([na_position='last']). *)
Definition kind (v : value) : nat :=
  match v with
  | Float (S754_infinity true) => 0
  | Int _ | Float (S754_zero _) | Float (S754_finite _ _ _) => 1
  | Float (S754_infinity false) => 2
  | Str _ | Obj _ => 3
  | Timestamp _ => 4
  | Float S754_nan | NaT => 5
  end.

(** Ascending order of a sort key: numbers by value, text by code unit,
    timestamps by instant, missing values last. *)
Definition value_leb (v w : value) : bool :=
  match v, w with
  | (Str s | Obj s), (Str t | Obj t) => String.leb s t
  | Timestamp a, Timestamp b => Z.leb a b
  | _, _ =>
      match number v, number w with
      | Some a, Some b => Qle_bool a b
      | _, _ => Nat.leb (kind v) (kind w)
      end
  end.

Definition value_ltb (v w : value) : bool := negb (value_leb w v).

(** Equality of keys as [duplicated] and [groupby] see it: equal numbers,
    identical text, identical instants; two missing keys are equal. *)
Definition value_eqb (v w : value) : bool := value_leb v w && value_leb w v.

(** ** Float arithmetic on a column *)

(** [x - y] in float64. *)
Definition fsub (x y : float64) : float64 := SFsub 53 1024 x y.

(** [x > c] for a scalar [c]: every comparison with NaN is [False]. *)
Definition fgt (x : float64) (c : Q) : bool :=
  match x with
  | S754_nan => false
  | S754_infinity s => negb s
  | _ =>
      match Q_of_float x with
      | Some q => negb (Qle_bool q c)
      | None => false
      end
  end.

(** ** Data frames *)

Record Row : Type := mkRow {
  label : nat;                      (* index label *)
  cells : list (string * value)     (* column label, entry *)
}.

Record DataFrame : Type := newDataFrame {
  columns : list string;
  rows : list Row;
  str_columns : list string         (* labels of the columns of dtype str *)
}.

(** A frame without a column of dtype str. *)
Definition mkDataFrame (cols : list string) (rws : list Row) : DataFrame :=
  newDataFrame cols rws [].

(** What the reader extracts from a CSV file: the header line and the
    records below it, each a list of typed fields. *)
Record Table : Type := mkTable {
  header : list string;
  records : list (list value)
}.

Fixpoint lookup (c : string) (kv : list (string * value)) : option value :=
  match kv with
  | [] => None
  | (k, v) :: kv' => if String.eqb k c then Some v else lookup c kv'
  end.

(** Entry of row [r] in column [c]; a record shorter than the header is
    padded with NaN. *)
Definition at_ (r : Row) (c : string) : value :=
  match lookup c (cells r) with
  | Some v => v
  | None => Float NaN
  end.

Fixpoint assign (c : string) (v : value) (kv : list (string * value))
  : list (string * value) :=
  match kv with
  | [] => [(c, v)]
  | (k, x) :: kv' =>
      if String.eqb k c then (k, v) :: kv' else (k, x) :: assign c v kv'
  end.

Definition has_label (c : string) (cols : list string) : bool :=
  existsb (String.eqb c) cols.

Definition add_label (c : string) (cols : list string) : list string :=
  if has_label c cols then cols else (cols ++ [c])%list.

(** Rows of a freshly read frame carry a RangeIndex: labels
    [start], [start + 1], ... *)
Fixpoint range_rows (hd : list string) (start : nat)
  (recs : list (list value)) : list Row :=
  match recs with
  | [] => []
  | rec :: recs' =>
      mkRow start (combine hd rec) :: range_rows hd (S start) recs'
  end.

Definition remove_label (c : string) (cols : list string) : list string :=
  filter (fun k => negb (String.eqb c k)) cols.

(** The columns that hold an entry of dtype str. *)
Definition str_labels (cols : list string) (rws : list Row) : list string :=
  filter (fun c => existsb (fun r => is_str (at_ r c)) rws) cols.

Definition frame_of_table (t : Table) : DataFrame :=
  newDataFrame (header t) (range_rows (header t) 0 (records t))
    (str_labels (header t) (range_rows (header t) 0 (records t))).

(** [df[c]] *)
Definition getitem (df : DataFrame) (c : string) : result (list value) :=
  if has_label c (columns df)
  then Ok (map (fun r => at_ r c) (rows df))
  else Raise (KeyError c).

(** [df[c] = col], for a column of the frame's own length; the column
    takes the dtype of what is assigned. *)
Definition setitem (df : DataFrame) (c : string) (col : list value)
  : DataFrame :=
  newDataFrame (add_label c (columns df))
    (map (fun rv => mkRow (label (fst rv)) (assign c (snd rv) (cells (fst rv))))
       (combine (rows df) col))
    (if existsb is_str col then add_label c (str_columns df)
     else remove_label c (str_columns df)).

(** [df[mask]]: the rows go, the dtypes stay. *)
Definition select (df : DataFrame) (mask : list bool) : DataFrame :=
  newDataFrame (columns df)
    (map fst (filter snd (combine (rows df) mask)))
    (str_columns df).

(** [df.empty] *)
Definition empty (df : DataFrame) : bool :=
  match columns df, rows df with
  | _ :: _, _ :: _ => false
  | _, _ => true
  end.

(** ** Sorting *)

(** Lexicographic comparison of two rows on the columns [by_]. *)
Fixpoint rows_leb (by_ : list string) (r1 r2 : Row) : bool :=
  match by_ with
  | [] => true
  | c :: by' =>
      if value_ltb (at_ r1 c) (at_ r2 c) then true
      else if value_ltb (at_ r2 c) (at_ r1 c) then false
      else rows_leb by' r1 r2
  end.

Fixpoint insert (leb : Row -> Row -> bool) (x : Row) (l : list Row)
  : list Row :=
  match l with
  | [] => [x]
  | y :: l' => if leb x y then x :: l else y :: insert leb x l'
  end.

(** With two or more sort keys [sort_values] does not use its [kind]
    (quicksort is for a single key): it orders the rows with a lexsort over
    the codes of the keys, which keeps rows with equal keys in the order
    they had.  Modelled as an insertion sort. *)
Definition lexsort (leb : Row -> Row -> bool) (l : list Row) : list Row :=
  fold_right (insert leb) [] l.

(** [df.sort_values(by=by_)] for two or more labels in [by_]. *)
Definition sort_values (df : DataFrame) (by_ : list string)
  : result DataFrame :=
  match find (fun c => negb (has_label c (columns df))) by_ with
  | Some c => Raise (KeyError c)
  | None =>
      Ok (newDataFrame (columns df) (lexsort (rows_leb by_) (rows df))
            (str_columns df))
  end.

(** ** Duplicates and groups *)

Definition same_key (c : string) (r r' : Row) : bool :=
  value_eqb (at_ r' c) (at_ r c).

(** [df.duplicated(subset, keep=False)]: every row whose key occurs more
    than once is marked, the first occurrence included. *)
Definition duplicated (df : DataFrame) (subset : string)
  : result (list bool) :=
  if has_label subset (columns df)
  then Ok (map (fun r =>
                  (1 <? List.length (filter (same_key subset r) (rows df)))%nat)
             (rows df))
  else Raise (KeyError subset).

(** Operand of the subtraction in [diff]: numbers only, an integer as the
    double nearest to it. *)
Definition to_float (v : value) : result float64 :=
  match v with
  | Int z => Ok (double_of_Z z)
  | Float x => Ok x
  | _ => Raise (TypeError "unsupported operand type(s) for -: 'str' and 'float'")
  end.

(** The entry that [shift(1)] within groups gives a row with key [k]:
    the entry of the most recent row of the same group, NaN when there is
    none; rows with a missing key belong to no group ([dropna=True]). *)
Definition previous (seen : list (value * float64)) (k : value) : float64 :=
  if isna k then NaN
  else match find (fun p => value_eqb (fst p) k) seen with
       | Some p => snd p
       | None => NaN
       end.

(** [seen] holds the rows already passed, most recent first. *)
Fixpoint group_shift (seen l : list (value * float64)) : list float64 :=
  match l with
  | [] => []
  | p :: l' => previous seen (fst p) :: group_shift (p :: seen) l'
  end.

Fixpoint zip_with {A B C : Type} (f : A -> B -> C) (l : list A) (m : list B)
  : list C :=
  match l, m with
  | a :: l', b :: m' => f a b :: zip_with f l' m'
  | _, _ => []
  end.

(** [df.groupby(by_)[col].diff()]: the column minus its shift within
    groups.  A column of dtype str is refused as a whole, whatever its
    rows; the entries of any other column are subtracted one by one. *)
Definition groupby_diff (df : DataFrame) (by_ col : string)
  : result (list value) :=
  keys <- getitem df by_ ;;
  entries <- (if has_label col (columns df)
              then Ok (map (fun r => at_ r col) (rows df))
              else Raise (KeyError ("Column not found: " ++ col))) ;;
  amounts <- (if has_label col (str_columns df)
              then Raise (TypeError
                            ("operation 'sub' not supported for dtype 'str'"
                             ++ " with dtype 'str'"))
              else traverse to_float entries) ;;
  Ok (map Float
        (zip_with fsub amounts (group_shift [] (combine keys amounts)))).

(** [v > c] on one entry of a column. *)
Definition gt_scalar (c : Q) (v : value) : result bool :=
  match v with
  | Int z => Ok (negb (Qle_bool (inject_Z z) c))
  | Float x => Ok (fgt x c)
  | _ => Raise (TypeError "'>' not supported between instances of 'str' and 'int'")
  end.

(** ** The engine *)

Definition string_of_Z (z : Z) : string :=
  NilZero.string_of_int (Z.to_int z).

(** What [to_datetime] needs besides the column: the reading of the clock
    when it runs, in nanoseconds since the epoch, and the conversion of one
    non-missing entry of the column at a given reading of the clock.
    pandas settles one format for a column, guessed from its first entry
    that is not missing: a parser stands for the conversion of one date
    column, and is not to be used for another. *)
Record DateParser : Type := mkDateParser {
  clock : Z;
  parse_entry : Z -> value -> result Z
}.

Section Engine.

(** The reader: the table found at a path, or the exception raised. *)
Variable read_table : string -> result Table.
(** The date parser: its clock and its conversion of one entry. *)
Variable parse_datetime : DateParser.
(** The JSON text of a finite double and of a string. *)
Variable json_double : Q -> string.
Variable json_string : string -> string.

(** [pd.read_csv(path)] *)
Definition read_csv (path : string) : result DataFrame :=
  t <- read_table path ;; Ok (frame_of_table t).

Definition to_timestamp (v : value) : result value :=
  match v with
  | Timestamp _ | NaT => Ok v
  | Float S754_nan => Ok NaT
  | _ =>
      ns <- parse_entry parse_datetime (clock parse_datetime) v ;;
      Ok (Timestamp ns)
  end.

(** [pd.to_datetime(col)] *)
Definition to_datetime (col : list value) : result (list value) :=
  traverse to_timestamp col.

Definition find_subscription_leeches (csv_file : string)
  : result DataFrame :=
  df <- read_csv csv_file ;;
  dates <- getitem df "date" ;;
  dates <- to_datetime dates ;;
  let df := setitem df "date" dates in
  df <- sort_values df ["merchant"; "date"] ;;
  (* Identify recurring merchants *)
  dup <- duplicated df "merchant" ;;
  let recurring := select df dup in
  (* Calculate price change *)
  price_change <- groupby_diff recurring "merchant" "amount" ;;
  let recurring := setitem recurring "price_change" price_change in
  (* Return rows where price increased *)
  col <- getitem recurring "price_change" ;;
  mask <- traverse (gt_scalar 0%Q) col ;;
  Ok (select recurring mask).

(** The frame once it is sorted (after source line 15). *)
Definition sorted_frame (csv_file : string) : result DataFrame :=
  df <- read_csv csv_file ;;
  dates <- getitem df "date" ;;
  dates <- to_datetime dates ;;
  sort_values (setitem df "date" dates) ["merchant"; "date"].

(** [recurring] once [price_change] is assigned (after source line 19). *)
Definition recurring_frame (csv_file : string) : result DataFrame :=
  df <- sorted_frame csv_file ;;
  dup <- duplicated df "merchant" ;;
  price_change <- groupby_diff (select df dup) "merchant" "amount" ;;
  Ok (setitem (select df dup) "price_change" price_change).

(** [df.to_json(orient='records')]: one object per row, one member per
    column, timestamps as epoch milliseconds. *)
Definition to_records (df : DataFrame) : list (list (string * value)) :=
  map (fun r => map (fun c => (c, at_ r c)) (columns df)) (rows df).

(** NaN, NaT and the infinities are written [null]. *)
Definition json_value (v : value) : string :=
  match v with
  | Int z => string_of_Z z
  | Float (S754_zero true) => "-" ++ json_double 0%Q
  | Float x =>
      match Q_of_float x with
      | Some q => json_double q
      | None => "null"
      end
  | Str s | Obj s => json_string s
  | Timestamp ns => string_of_Z (ns / 1000000)%Z
  | NaT => "null"
  end.

Definition json_object (members : list (string * value)) : string :=
  "{" ++ String.concat ","
           (map (fun m => json_string (fst m) ++ ":" ++ json_value (snd m))
              members) ++ "}".

Definition to_json (df : DataFrame) : string :=
  "[" ++ String.concat "," (map json_object (to_records df)) ++ "]".

Definition analyze_transactions (csv_path : string) : string :=
  match find_subscription_leeches csv_path with
  | Ok leeches =>
      if empty leeches then "No price hikes found."
      else to_json leeches
  | Raise e => "Error: " ++ str e
  end.

End Engine.

(** ** Vocabulary of the properties *)

(** The merchant partition of [m]: the rows whose merchant is [m], in the
    order of the frame. *)
Definition merchant_partition (m : value) (l : list Row) : list Row :=
  filter (fun r => value_eqb (at_ r "merchant") m) l.

(** The amount of a row as [diff] reads it. *)
Definition amount_of (r : Row) : float64 :=
  match to_float (at_ r "amount") with
  | Ok x => x
  | Raise _ => NaN
  end.

Definition keyed (r : Row) : value * float64 :=
  (at_ r "merchant", amount_of r).

(** The price change of [r] when the rows [seen] precede it, most recent
    first. *)
Definition delta (seen : list Row) (r : Row) : float64 :=
  fsub (amount_of r) (previous (map keyed seen) (at_ r "merchant")).

Fixpoint annotate (seen l : list Row) : list (Row * float64) :=
  match l with
  | [] => []
  | r :: l' => (r, delta seen r) :: annotate (r :: seen) l'
  end.

Definition with_price_change (rd : Row * float64) : Row :=
  mkRow (label (fst rd))
    (assign "price_change" (Float (snd rd)) (cells (fst rd))).

(** Rows that occur more than once by merchant. *)
Definition is_recurring (l : list Row) (r : Row) : bool :=
  (1 <? List.length (filter (same_key "merchant" r) l))%nat.

(** Ascending by [leb]; rows that tie are ascending by index label. *)
Definition stable_order (leb : Row -> Row -> bool) (a b : Row) : Prop :=
  leb a b = true /\ (leb b a = true -> (label a < label b)%nat).

(** Merchant ascending, then date ascending, then index label ascending. *)
Definition hike_order : Row -> Row -> Prop :=
  stable_order (rows_leb ["merchant"; "date"]).

(** [r'] is [r] with its date converted by [to_datetime]. *)
Definition dated (parse_datetime : DateParser) (r r' : Row) : Prop :=
  exists v, to_timestamp parse_datetime (at_ r "date") = Ok v
            /\ r' = mkRow (label r) (assign "date" v (cells r)).

(** Two rows with the same index label and the same entries in the three
    columns the engine reads. *)
Definition agree (a b : Row) : Prop :=
  label a = label b
  /\ at_ a "date" = at_ b "date"
  /\ at_ a "merchant" = at_ b "merchant"
  /\ at_ a "amount" = at_ b "amount".

(** The row that record number [i] of a table becomes when it is read. *)
Definition raw_row (t : Table) (i : nat) (rec : list value) : Row :=
  mkRow i (combine (header t) rec).

(** ** Reference instances of the section variables

    Enough of pandas' behaviour to run the engine on concrete tables:
    ISO [YYYY-MM-DD] dates of the calendar and the words [now] and [today],
    JSON strings with the quote,
    the backslash and the slash escaped, and doubles rounded to ten
    decimals. *)

Definition digit (c : ascii) : option Z :=
  let n := N_of_ascii c in
  if ((48 <=? n) && (n <=? 57))%N then Some (Z.of_N n - 48)%Z else None.

Fixpoint digits_from (acc : Z) (s : string) : option Z :=
  match s with
  | EmptyString => Some acc
  | String c s' =>
      match digit c with
      | Some d => digits_from (10 * acc + d)%Z s'
      | None => None
      end
  end.

(** Days between 1970-01-01 and the given civil date. *)
Definition days_from_civil (y m d : Z) : Z :=
  (let y' := if m <=? 2 then y - 1 else y in
   let era := y' / 400 in
   let yoe := y' - era * 400 in
   let mp := if m <=? 2 then m + 9 else m - 3 in
   let doy := (153 * mp + 2) / 5 + d - 1 in
   let doe := yoe * 365 + yoe / 4 - yoe / 100 + doy in
   era * 146097 + doe - 719468)%Z.

Definition is_dash (o : option ascii) : bool :=
  match o with
  | Some c => (N_of_ascii c =? 45)%N
  | None => false
  end.

Definition is_leap (y : Z) : bool :=
  ((y mod 4 =? 0) && (negb (y mod 100 =? 0) || (y mod 400 =? 0)))%Z%bool.

Definition days_in_month (y m : Z) : Z :=
  (if m =? 2 then (if is_leap y then 29 else 28)
   else if (m =? 4) || (m =? 6) || (m =? 9) || (m =? 11) then 30
   else 31)%Z%bool.

Definition iso_date (s : string) : option Z :=
  if ((String.length s =? 10)%nat && is_dash (String.get 4 s)
      && is_dash (String.get 7 s))%bool
  then
    match digits_from 0 (substring 0 4 s), digits_from 0 (substring 5 2 s),
          digits_from 0 (substring 8 2 s) with
    | Some y, Some m, Some d =>
        if ((1 <=? m) && (m <=? 12) && (1 <=? d)
            && (d <=? days_in_month y m))%Z%bool
        then Some (days_from_civil y m d * 86400000000000)%Z
        else None
    | _, _, _ => None
    end
  else None.

Definition iso_parse_entry (now : Z) (v : value) : result Z :=
  match v with
  | Str s | Obj s =>
      if String.eqb s "now" || String.eqb s "today" then Ok now
      else
        match iso_date s with
        | Some ns => Ok ns
        | None =>
            Raise (ValueError
                     ("Unknown datetime string format, unable to parse: "
                      ++ s))
        end
  | Int z => Ok z
  | Float x =>
      match Q_of_float x with
      | Some q => Ok (Qfloor q)
      | None => Raise (ValueError "cannot convert input with unit 'ns'")
      end
  | _ => Raise (TypeError "not convertible to datetime")
  end.

(** The ISO parser when the clock reads [now]. *)
Definition iso_parse_datetime_at (now : Z) : DateParser :=
  mkDateParser now iso_parse_entry.

(** The ISO parser at noon of 2024-06-01. *)
Definition iso_parse_datetime : DateParser :=
  iso_parse_datetime_at 1717243200000000000.

Definition quote : string := String "034"%char EmptyString.

Fixpoint escape (s : string) : string :=
  match s with
  | EmptyString => EmptyString
  | String c s' =>
      if ((N_of_ascii c =? 34) || (N_of_ascii c =? 92)
          || (N_of_ascii c =? 47))%N
      then String "\"%char (String c (escape s'))
      else String c (escape s')
  end.

Definition plain_json_string (s : string) : string :=
  quote ++ escape s ++ quote.

(** Drop the zeros that end a run of decimals. *)
Fixpoint strip_zeros (s : string) : string :=
  match s with
  | EmptyString => EmptyString
  | String c s' =>
      match strip_zeros s' with
      | EmptyString =>
          if (N_of_ascii c =? 48)%N then EmptyString
          else String c EmptyString
      | t => String c t
      end
  end.

Definition decimal_json_double (q : Q) : string :=
  let n := Qnum q in
  let d := Z.pos (Qden q) in
  let a := (Z.abs n * 10000000000)%Z in
  let units := (if 2 * (a mod d) <? d then a / d else a / d + 1)%Z in
  let frac := (10000000000 + units mod 10000000000)%Z in
  let decimals := strip_zeros (substring 1 10 (string_of_Z frac)) in
  (if (n <? 0)%Z then "-" else "") ++ string_of_Z (units / 10000000000) ++ "."
  ++ (match decimals with EmptyString => "0" | _ => decimals end).

(** A file system holding one file. *)
Definition single_file (path : string) (t : Table) (p : string)
  : result Table :=
  if String.eqb p path then Ok t
  else Raise (OSError ("[Errno 2] No such file or directory: '" ++ p ++ "'")).

Definition run (t : Table) : string :=
  analyze_transactions (single_file "tx.csv" t) iso_parse_datetime
    decimal_json_double plain_json_string "tx.csv".

Definition leeches_of (t : Table) : result DataFrame :=
  find_subscription_leeches (single_file "tx.csv" t) iso_parse_datetime
    "tx.csv".

Definition sorted_of (t : Table) : result DataFrame :=
  sorted_frame (single_file "tx.csv" t) iso_parse_datetime "tx.csv".

Definition recurring_of (t : Table) : result DataFrame :=
  recurring_frame (single_file "tx.csv" t) iso_parse_datetime "tx.csv".

(** An answer that reports a failure as text. *)
Definition is_error_text (answer : string) : bool :=
  String.prefix "Error: " answer.

(** ** Sample tables *)

Definition tx (d m : string) (a : Z) : list value := [Str d; Str m; Int a].

(** Scenario A of the specification. *)
Definition scenario_A : Table :=
  mkTable ["date"; "merchant"; "amount"]
    [tx "2024-01-15" "A" 10; tx "2024-02-15" "A" 12;
     tx "2024-03-15" "A" 12; tx "2024-01-15" "B" 5].

(** Scenario B of the specification. *)
Definition scenario_B : Table :=
  mkTable ["date"; "merchant"; "amount"]
    [tx "2024-01-15" "C" 20; tx "2024-02-15" "C" 15;
     tx "2024-03-15" "C" 30].

Definition scenario_A_hike : Row :=
  mkRow 1 [("date", Timestamp 1707955200000000000); ("merchant", Str "A");
           ("amount", Int 12); ("price_change", Float (double_of_Z 2))].

Definition scenario_A_hikes : DataFrame :=
  newDataFrame ["date"; "merchant"; "amount"; "price_change"]
    [scenario_A_hike] ["merchant"].

Definition scenario_B_hikes : DataFrame :=
  newDataFrame ["date"; "merchant"; "amount"; "price_change"]
    [mkRow 2 [("date", Timestamp 1710460800000000000); ("merchant", Str "C");
              ("amount", Int 30); ("price_change", Float (double_of_Z 15))]]
    ["merchant"].

(** Three charges of one merchant on the same day, after an earlier one. *)
Definition same_day : Table :=
  mkTable ["date"; "merchant"; "amount"]
    [tx "2024-02-15" "A" 12; tx "2024-01-15" "A" 10;
     tx "2024-02-15" "A" 15; tx "2024-02-15" "A" 11].

Definition same_day_hikes : DataFrame :=
  newDataFrame ["date"; "merchant"; "amount"; "price_change"]
    [mkRow 0 [("date", Timestamp 1707955200000000000); ("merchant", Str "A");
              ("amount", Int 12); ("price_change", Float (double_of_Z 2))];
     mkRow 2 [("date", Timestamp 1707955200000000000); ("merchant", Str "A");
              ("amount", Int 15); ("price_change", Float (double_of_Z 3))]]
    ["merchant"].

(** A table without the [amount] column. *)
Definition missing_amount : Table :=
  mkTable ["date"; "merchant"]
    [[Str "2024-01-15"; Str "A"]; [Str "2024-02-15"; Str "A"]].



(** The same kind of table as an object column holds it: text amounts,
    for merchants that occur once each. *)
Definition object_amounts : Table :=
  mkTable ["date"; "merchant"; "amount"]
    [[Obj "2024-01-15"; Obj "A"; Obj "twelve"];
     [Obj "2024-02-15"; Obj "B"; Obj "12"]].


(** Two amounts above 2 ^ 53, three apart. *)
Definition large_amounts : Table :=
  mkTable ["date"; "merchant"; "amount"]
    [tx "2024-01-15" "A" 9007199254740992;
     tx "2024-02-15" "A" 9007199254740995].

Definition large_amounts_hike : Row :=
  mkRow 1 [("date", Timestamp 1707955200000000000); ("merchant", Str "A");
           ("amount", Int 9007199254740995);
           ("price_change", Float (double_of_Z 4))].

Definition large_amounts_hikes : DataFrame :=
  newDataFrame ["date"; "merchant"; "amount"; "price_change"]
    [large_amounts_hike] ["merchant"].

(** Two amounts from 2 ^ 53 on, one apart. *)
Definition large_step : Table :=
  mkTable ["date"; "merchant"; "amount"]
    [tx "2024-01-15" "A" 9007199254740992;
     tx "2024-02-15" "A" 9007199254740993].

(** A charge dated with the word [now]. *)
Definition charged_now : Table :=
  mkTable ["date"; "merchant"; "amount"]
    [tx "now" "A" 12; tx "2024-01-15" "A" 10].

(** The answer for a table when the clock reads [now]. *)
Definition run_at (now : Z) (t : Table) : string :=
  analyze_transactions (single_file "tx.csv" t) (iso_parse_datetime_at now)
    decimal_json_double plain_json_string "tx.csv".

(** A table with its header and no record. *)
Definition no_records : Table :=
  mkTable ["date"; "merchant"; "amount"] [].

(** Scenario A with one more column. *)
Definition with_note : Table :=
  mkTable ["date"; "merchant"; "amount"; "note"]
    [[Str "2024-01-15"; Str "A"; Int 10; Str "trial"];
     [Str "2024-02-15"; Str "A"; Int 12; Str "renewal"]].

Definition with_note_hikes : DataFrame :=
  newDataFrame ["date"; "merchant"; "amount"; "note"; "price_change"]
    [mkRow 1 [("date", Timestamp 1707955200000000000); ("merchant", Str "A");
              ("amount", Int 12); ("note", Str "renewal");
              ("price_change", Float (double_of_Z 2))]]
    ["merchant"; "note"].

Definition dated_row (i : nat) (ns : Z) (m : string) (a : Z) : Row :=
  mkRow i [("date", Timestamp ns); ("merchant", Str m); ("amount", Int a)].

(** The hike of the table with a note. *)
Definition with_note_hike : Row :=
  mkRow 1 [("date", Timestamp 1707955200000000000); ("merchant", Str "A");
           ("amount", Int 12); ("note", Str "renewal");
           ("price_change", Float (double_of_Z 2))].

(** Scenario A once it is sorted. *)
Definition scenario_A_sorted : DataFrame :=
  newDataFrame ["date"; "merchant"; "amount"]
    [dated_row 0 1705276800000000000 "A" 10;
     dated_row 1 1707955200000000000 "A" 12;
     dated_row 2 1710460800000000000 "A" 12;
     dated_row 3 1705276800000000000 "B" 5]
    ["merchant"].

(** Scenario A with a note on every record. *)
Definition scenario_A_noted : Table :=
  mkTable ["date"; "merchant"; "amount"; "note"]
    [[Str "2024-01-15"; Str "A"; Int 10; Str "trial"];
     [Str "2024-02-15"; Str "A"; Int 12; Str "renewal"];
     [Str "2024-03-15"; Str "A"; Int 12; Str "renewal"];
     [Str "2024-01-15"; Str "B"; Int 5; Str "once"]].

(** Two charges without a date around a dated one. *)
Definition undated : Table :=
  mkTable ["date"; "merchant"; "amount"]
    [[Float NaN; Str "A"; Int 12]; tx "2024-01-15" "A" 10;
     [Float NaN; Str "A"; Int 13]].

Definition undated_row (i : nat) (a : Z) : Row :=
  mkRow i [("date", NaT); ("merchant", Str "A"); ("amount", Int a)].

Definition undated_sorted : DataFrame :=
  newDataFrame ["date"; "merchant"; "amount"]
    [dated_row 1 1705276800000000000 "A" 10; undated_row 0 12;
     undated_row 2 13]
    ["merchant"].

(** * Properties *)

(** ** The error monad *)

Lemma bind_Ok_inv {A B : Type} (m : result A) (k : A -> result B) (b : B) :
  bind m k = Ok b -> exists a, m = Ok a /\ k a = Ok b.
Proof.
  destruct m as [a|e]; simpl; intros H; [eauto | discriminate].
Qed.

Ltac bind_inv H :=
  let a := fresh "x" in
  let Ha := fresh "Hx" in
  apply bind_Ok_inv in H; destruct H as (a & Ha & H).

Lemma traverse_ext {A B : Type} (f g : A -> result B) (l : list A) :
  (forall a, In a l -> f a = g a) -> traverse f l = traverse g l.
Proof.
  induction l as [|a l IH]; simpl; intros E; [reflexivity|].
  rewrite (E a), IH by auto; reflexivity.
Qed.

Lemma traverse_map {A B C : Type} (f : B -> result C) (g : A -> B)
  (l : list A) :
  traverse f (map g l) = traverse (fun a => f (g a)) l.
Proof.
  induction l as [|a l IH]; simpl; [reflexivity|].
  rewrite IH; reflexivity.
Qed.

(** A traversal whose function succeeds on every element is a map. *)
Lemma traverse_total {A B : Type} (f : A -> result B) (g : A -> B)
  (l : list A) :
  (forall a, In a l -> f a = Ok (g a)) -> traverse f l = Ok (map g l).
Proof.
  induction l as [|a l IH]; simpl; intros H; [reflexivity|].
  rewrite (H a (or_introl eq_refl)); simpl.
  rewrite IH by auto; reflexivity.
Qed.

Lemma traverse_Ok_inv {A B : Type} (f : A -> result B) (l : list A) bs :
  traverse f l = Ok bs -> Forall2 (fun a b => f a = Ok b) l bs.
Proof.
  revert bs; induction l as [|a l IH]; simpl; intros bs H.
  - inversion H; constructor.
  - bind_inv H. bind_inv H. inversion H; subst; constructor; auto.
Qed.


(** ** The order of sort keys *)

Lemma string_compare_refl (s : string) : String.compare s s = Eq.
Proof.
  induction s as [|c s IH]; simpl; [reflexivity|].
  unfold Ascii.compare; rewrite N.compare_refl; exact IH.
Qed.

Lemma string_compare_lt_trans (s1 s2 s3 : string) :
  String.compare s1 s2 = Lt -> String.compare s2 s3 = Lt ->
  String.compare s1 s3 = Lt.
Proof.
  revert s2 s3; induction s1 as [|c1 s1 IH]; intros [|c2 s2] [|c3 s3];
    simpl; try congruence.
  unfold Ascii.compare.
  destruct (N.compare_spec (N_of_ascii c1) (N_of_ascii c2)) as [E12|L12|G12];
    try congruence;
    destruct (N.compare_spec (N_of_ascii c2) (N_of_ascii c3)) as [E23|L23|G23];
    try congruence; intros H1 H2.
  - rewrite E12, E23, N.compare_refl; eauto.
  - rewrite E12; apply N.compare_lt_iff in L23; rewrite L23; reflexivity.
  - rewrite <- E23; apply N.compare_lt_iff in L12; rewrite L12; reflexivity.
  - assert (L : (N_of_ascii c1 < N_of_ascii c3)%N) by lia.
    apply N.compare_lt_iff in L; rewrite L; reflexivity.
Qed.

Lemma string_leb_refl (s : string) : String.leb s s = true.
Proof. unfold String.leb; rewrite string_compare_refl; reflexivity. Qed.

Lemma string_leb_total (s t : string) :
  String.leb s t = false -> String.leb t s = true.
Proof.
  destruct (String.leb_total s t) as [H|H]; congruence.
Qed.

Lemma string_leb_trans (s1 s2 s3 : string) :
  String.leb s1 s2 = true -> String.leb s2 s3 = true ->
  String.leb s1 s3 = true.
Proof.
  unfold String.leb.
  destruct (String.compare s1 s2) eqn:C12; try discriminate;
    destruct (String.compare s2 s3) eqn:C23; try discriminate; intros _ _.
  - apply String.compare_eq_iff in C12, C23; subst.
    rewrite string_compare_refl; reflexivity.
  - apply String.compare_eq_iff in C12; subst; rewrite C23; reflexivity.
  - apply String.compare_eq_iff in C23; subst; rewrite C12; reflexivity.
  - rewrite (string_compare_lt_trans _ _ _ C12 C23); reflexivity.
Qed.

Lemma Qle_bool_total (a b : Q) : Qle_bool a b = false -> Qle_bool b a = true.
Proof.
  intros H. apply Qle_bool_iff.
  destruct (Qlt_le_dec b a) as [L|L].
  - apply Qlt_le_weak; exact L.
  - apply Qle_bool_iff in L; congruence.
Qed.

Lemma Qle_bool_trans (a b c : Q) :
  Qle_bool a b = true -> Qle_bool b c = true -> Qle_bool a c = true.
Proof.
  rewrite !Qle_bool_iff; apply Qle_trans.
Qed.

Lemma Qle_bool_refl (a : Q) : Qle_bool a a = true.
Proof. apply Qle_bool_iff, Qle_refl. Qed.

Lemma Z_leb_total (a b : Z) : (a <=? b)%Z = false -> (b <=? a)%Z = true.
Proof. intros H; apply Z.leb_gt in H; apply Z.leb_le; lia. Qed.

Lemma Z_leb_trans (a b c : Z) :
  (a <=? b)%Z = true -> (b <=? c)%Z = true -> (a <=? c)%Z = true.
Proof. intros H1 H2; apply Z.leb_le in H1, H2; apply Z.leb_le; lia. Qed.

(** The shapes of a value that the order of sort keys tells apart. *)
Ltac value_cases v :=
  let s := fresh "s" in
  let e := fresh "e" in
  destruct v as [?|[s|s| |s ? e]|?|?|?|];
  [ | | destruct s | | destruct e | | | | ].

Lemma value_leb_refl (v : value) : value_leb v v = true.
Proof.
  value_cases v; simpl;
    auto using string_leb_refl, Z.leb_refl, Qle_bool_refl.
Qed.

Lemma value_leb_total (v w : value) :
  value_leb v w = false -> value_leb w v = true.
Proof.
  value_cases v; value_cases w; simpl; try discriminate;
    auto using Qle_bool_total, string_leb_total, Z_leb_total.
Qed.

Lemma value_leb_trans (u v w : value) :
  value_leb u v = true -> value_leb v w = true -> value_leb u w = true.
Proof.
  value_cases u; value_cases v; value_cases w; simpl; try discriminate;
    auto; first [apply Qle_bool_trans | apply string_leb_trans
                | apply Z_leb_trans].
Qed.

Lemma value_eqb_refl (v : value) : value_eqb v v = true.
Proof. unfold value_eqb; rewrite value_leb_refl; reflexivity. Qed.

Lemma value_eqb_sym (v w : value) : value_eqb v w = value_eqb w v.
Proof. unfold value_eqb; apply andb_comm. Qed.

Lemma value_eqb_trans (u v w : value) :
  value_eqb u v = true -> value_eqb v w = true -> value_eqb u w = true.
Proof.
  unfold value_eqb; rewrite !andb_true_iff; intros [H1 H2] [H3 H4]; split;
    eauto using value_leb_trans.
Qed.

(** Equal keys are interchangeable in a test for equality. *)
Lemma value_eqb_congr (u v w : value) :
  value_eqb u v = true -> value_eqb u w = value_eqb v w.
Proof.
  intros E.
  destruct (value_eqb v w) eqn:Evw.
  - eauto using value_eqb_trans.
  - destruct (value_eqb u w) eqn:Euw; [|reflexivity].
    rewrite value_eqb_sym in E.
    rewrite <- Evw; symmetry; eauto using value_eqb_trans.
Qed.

(** ** The order of rows *)

Lemma rows_leb_total (by_ : list string) (a b : Row) :
  rows_leb by_ a b = false -> rows_leb by_ b a = true.
Proof.
  induction by_ as [|c by_ IH]; simpl; [discriminate|].
  unfold value_ltb.
  destruct (value_leb (at_ b c) (at_ a c)) eqn:Hba;
    destruct (value_leb (at_ a c) (at_ b c)) eqn:Hab; simpl; auto.
Qed.

Lemma rows_leb_trans (by_ : list string) (a b c : Row) :
  rows_leb by_ a b = true -> rows_leb by_ b c = true ->
  rows_leb by_ a c = true.
Proof.
  induction by_ as [|k by_ IH]; simpl; [reflexivity|].
  unfold value_ltb.
  pose proof (value_leb_trans (at_ a k) (at_ b k) (at_ c k)) as Tabc.
  pose proof (value_leb_trans (at_ b k) (at_ c k) (at_ a k)) as Tbca.
  pose proof (value_leb_trans (at_ c k) (at_ a k) (at_ b k)) as Tcab.
  pose proof (value_leb_trans (at_ c k) (at_ b k) (at_ a k)) as Tcba.
  pose proof (value_leb_total (at_ a k) (at_ b k)) as Oab.
  pose proof (value_leb_total (at_ b k) (at_ c k)) as Obc.
  destruct (value_leb (at_ a k) (at_ b k)), (value_leb (at_ b k) (at_ a k)),
    (value_leb (at_ b k) (at_ c k)), (value_leb (at_ c k) (at_ b k)),
    (value_leb (at_ a k) (at_ c k)), (value_leb (at_ c k) (at_ a k));
    simpl; intros H1 H2; auto; try discriminate;
    try (specialize (Tabc eq_refl eq_refl)); try (specialize (Tbca eq_refl eq_refl));
    try (specialize (Tcab eq_refl eq_refl)); try (specialize (Tcba eq_refl eq_refl));
    try (specialize (Oab eq_refl)); try (specialize (Obc eq_refl));
    discriminate.
Qed.

(** Rows with the same merchant compare by date. *)
Lemma rows_leb_same_merchant (a b : Row) :
  value_eqb (at_ a "merchant") (at_ b "merchant") = true ->
  rows_leb ["merchant"; "date"] a b = value_leb (at_ a "date") (at_ b "date").
Proof.
  unfold value_eqb; rewrite andb_true_iff; intros [H1 H2]; simpl.
  unfold value_ltb; rewrite H1, H2; simpl.
  destruct (value_leb (at_ b "date") (at_ a "date")) eqn:Hba; simpl.
  - destruct (value_leb (at_ a "date") (at_ b "date")); reflexivity.
  - symmetry; apply value_leb_total; exact Hba.
Qed.

(** ** The sort: a permutation, ordered, and stable *)

Section SortFacts.

Variable leb : Row -> Row -> bool.
Hypothesis leb_total : forall a b, leb a b = false -> leb b a = true.
Hypothesis leb_trans :
  forall a b c, leb a b = true -> leb b c = true -> leb a c = true.

Lemma insert_perm (x : Row) (l : list Row) :
  Permutation (insert leb x l) (x :: l).
Proof.
  induction l as [|y l IH]; simpl; [reflexivity|].
  destruct (leb x y); [reflexivity|].
  rewrite IH; apply perm_swap.
Qed.

Lemma lexsort_perm (l : list Row) : Permutation (lexsort leb l) l.
Proof.
  induction l as [|x l IH]; simpl; [reflexivity|].
  rewrite insert_perm; constructor; exact IH.
Qed.

Lemma insert_sorted (x : Row) (l : list Row) :
  StronglySorted (stable_order leb) l ->
  Forall (fun y => (label x < label y)%nat) l ->
  StronglySorted (stable_order leb) (insert leb x l).
Proof.
  induction 1 as [|y l Hs IH Hy]; simpl; intros Hx.
  - repeat constructor.
  - inversion Hx as [|? ? Hxy Hxl]; subst.
    destruct (leb x y) eqn:Lxy.
    + constructor; [constructor; assumption|].
      constructor; [split; auto|].
      rewrite Forall_forall in *; intros z Hz.
      destruct (Hy z Hz) as [Lyz _]; split; eauto.
    + constructor; [auto|].
      rewrite Forall_forall in *; intros z Hz.
      apply (Permutation_in _ (insert_perm x l)) in Hz.
      destruct Hz as [<-|Hz]; [|auto].
      split; [auto|congruence].
Qed.

Lemma lexsort_sorted (l : list Row) :
  StronglySorted lt (map label l) ->
  StronglySorted (stable_order leb) (lexsort leb l).
Proof.
  induction l as [|x l IH]; simpl; intros Hl; [constructor|].
  apply StronglySorted_inv in Hl; destruct Hl as [Hl Hx].
  apply insert_sorted; [auto|].
  rewrite Forall_forall in *; intros y Hy.
  apply Hx, in_map, (Permutation_in _ (lexsort_perm l)), Hy.
Qed.

End SortFacts.

(** ** Lists *)

Lemma filter_length_perm {A : Type} (f : A -> bool) (l l' : list A) :
  Permutation l l' -> List.length (filter f l) = List.length (filter f l').
Proof.
  induction 1 as [|x l l' _ IH|x y l|l l' l'' _ IH1 _ IH2]; simpl;
    [reflexivity| | |congruence].
  - destruct (f x); simpl; congruence.
  - destruct (f x), (f y); reflexivity.
Qed.

Lemma StronglySorted_filter {A : Type} (R : A -> A -> Prop) (f : A -> bool)
  (l : list A) :
  StronglySorted R l -> StronglySorted R (filter f l).
Proof.
  induction 1 as [|x l Hs IH Hx]; simpl; [constructor|].
  destruct (f x); [constructor|]; auto.
  rewrite Forall_forall in *; intros y Hy.
  apply filter_In in Hy; apply Hx, Hy.
Qed.

Lemma StronglySorted_map {A B : Type} (R : A -> A -> Prop)
  (S : B -> B -> Prop) (g : A -> B) (l : list A) :
  (forall a b, R a b -> S (g a) (g b)) ->
  StronglySorted R l -> StronglySorted S (map g l).
Proof.
  intros HRS; induction 1 as [|x l Hs IH Hx]; simpl; constructor; auto.
  rewrite Forall_forall in *; intros y Hy.
  apply in_map_iff in Hy; destruct Hy as (a & <- & Ha); auto.
Qed.

Lemma StronglySorted_app_inv {A : Type} (R : A -> A -> Prop)
  (l1 l2 : list A) (x y : A) :
  StronglySorted R (l1 ++ x :: y :: l2)%list -> R x y.
Proof.
  induction l1 as [|a l1 IH]; simpl; intros H;
    apply StronglySorted_inv in H; destruct H as [H Ha]; [|auto].
  inversion Ha; assumption.
Qed.

(** Filtering the rows of a mask built from the rows themselves. *)
Lemma select_map_mask {A : Type} (f : A -> bool) (l : list A) :
  map fst (filter snd (combine l (map f l))) = filter f l.
Proof.
  induction l as [|a l IH]; simpl; [reflexivity|].
  destruct (f a); simpl; congruence.
Qed.

Lemma select_map_map {A B : Type} (g : A -> B) (f : A -> bool)
  (l : list A) :
  map fst (filter snd (combine (map g l) (map f l))) = map g (filter f l).
Proof.
  induction l as [|a l IH]; simpl; [reflexivity|].
  destruct (f a); simpl; congruence.
Qed.

Lemma combine_map_same {A B C : Type} (f : A -> B) (g : A -> C) (l : list A) :
  combine (map f l) (map g l) = map (fun a => (f a, g a)) l.
Proof.
  induction l as [|a l IH]; simpl; congruence.
Qed.

(** The last element of [l] that satisfies [f] ends the filter of [l]. *)
Lemma find_rev_filter {A : Type} (f : A -> bool) (l : list A) :
  match find f (rev l) with
  | Some p => exists before, filter f l = (before ++ [p])%list
  | None => filter f l = []
  end.
Proof.
  induction l as [|a l IH] using rev_ind; simpl; [reflexivity|].
  rewrite rev_app_distr, filter_app; simpl.
  destruct (f a) eqn:Fa.
  - eauto.
  - destruct (find f (rev l)) as [p|].
    + destruct IH as (before & ->); exists before.
      rewrite app_nil_r; reflexivity.
    + rewrite IH; reflexivity.
Qed.

Lemma Forall2_In_r {A B : Type} (Q : A -> B -> Prop) (l : list A)
  (m : list B) (b : B) :
  Forall2 Q l m -> In b m -> exists a, In a l /\ Q a b.
Proof.
  induction 1 as [|x y l m Hxy _ IH]; simpl; [tauto|].
  intros [<-|Hin]; [eauto|].
  destruct (IH Hin) as (a & Ha & Hq); eauto.
Qed.

Lemma Forall2_In_l {A B : Type} (Q : A -> B -> Prop) (l : list A)
  (m : list B) (a : A) :
  Forall2 Q l m -> In a l -> exists b, In b m /\ Q a b.
Proof.
  induction 1 as [|x y l m Hxy _ IH]; simpl; [tauto|].
  intros [<-|Hin]; [eauto|].
  destruct (IH Hin) as (b & Hb & Hq); eauto.
Qed.

Lemma Forall2_map_l {A B C : Type} (Q : B -> C -> Prop) (g : A -> B)
  (l : list A) (m : list C) :
  Forall2 Q (map g l) m -> Forall2 (fun a c => Q (g a) c) l m.
Proof.
  revert m; induction l as [|a l IH]; simpl; intros m H; inversion H; subst;
    constructor; auto.
Qed.

(** ** Cells, rows and frames *)

Lemma lookup_assign_same (c : string) (v : value) (kv : list (string * value)) :
  lookup c (assign c v kv) = Some v.
Proof.
  induction kv as [|[k x] kv IH]; simpl.
  - rewrite String.eqb_refl; reflexivity.
  - destruct (String.eqb k c) eqn:E; simpl; rewrite E; auto.
Qed.

Lemma lookup_assign_other (c c' : string) (v : value)
  (kv : list (string * value)) :
  c <> c' -> lookup c' (assign c v kv) = lookup c' kv.
Proof.
  intros Hc; induction kv as [|[k x] kv IH]; simpl.
  - apply String.eqb_neq in Hc; rewrite Hc; reflexivity.
  - destruct (String.eqb k c) eqn:E; simpl.
    + apply String.eqb_eq in E; subst k.
      apply String.eqb_neq in Hc; rewrite Hc; reflexivity.
    + rewrite IH; reflexivity.
Qed.

Lemma at_assign_same (i : nat) (c : string) (v : value)
  (kv : list (string * value)) :
  at_ (mkRow i (assign c v kv)) c = v.
Proof. unfold at_; simpl; rewrite lookup_assign_same; reflexivity. Qed.

Lemma at_assign_other (i j : nat) (c c' : string) (v : value)
  (kv : list (string * value)) :
  c <> c' -> at_ (mkRow i (assign c v kv)) c' = at_ (mkRow j kv) c'.
Proof.
  intros Hc; unfold at_; simpl; rewrite lookup_assign_other by assumption.
  reflexivity.
Qed.

Lemma at_with_price_change (rd : Row * float64) (c : string) :
  c <> "price_change" -> at_ (with_price_change rd) c = at_ (fst rd) c.
Proof.
  intros Hc; unfold with_price_change.
  rewrite (at_assign_other _ (label (fst rd))) by congruence.
  destruct (fst rd); reflexivity.
Qed.

Lemma price_change_with_price_change (rd : Row * float64) :
  lookup "price_change" (cells (with_price_change rd)) = Some (Float (snd rd)).
Proof. apply lookup_assign_same. Qed.

Lemma add_label_present (c : string) (cols : list string) :
  has_label c cols = true -> add_label c cols = cols.
Proof. unfold add_label; intros ->; reflexivity. Qed.

Lemma has_label_add_label (c c' : string) (cols : list string) :
  has_label c cols = true -> has_label c (add_label c' cols) = true.
Proof.
  unfold add_label; destruct (has_label c' cols); [auto|].
  unfold has_label; rewrite existsb_app; intros ->; reflexivity.
Qed.

Lemma has_label_added (c : string) (cols : list string) :
  has_label c (add_label c cols) = true.
Proof.
  unfold add_label; destruct (has_label c cols) eqn:E; [exact E|].
  unfold has_label; rewrite existsb_app; simpl.
  rewrite String.eqb_refl, orb_true_r; reflexivity.
Qed.

Lemma has_label_add_label_other (c c' : string) (cols : list string) :
  c <> c' -> has_label c (add_label c' cols) = has_label c cols.
Proof.
  intros Hc; unfold add_label; destruct (has_label c' cols); [reflexivity|].
  unfold has_label; rewrite existsb_app; simpl.
  apply String.eqb_neq in Hc; rewrite Hc, !orb_false_r; reflexivity.
Qed.

Lemma has_label_remove_label (c c' : string) (cols : list string) :
  c <> c' -> has_label c (remove_label c' cols) = has_label c cols.
Proof.
  intros Hc; unfold has_label, remove_label.
  induction cols as [|k cols IH]; simpl; [reflexivity|].
  destruct (String.eqb c' k) eqn:E; simpl; rewrite IH; [|reflexivity].
  apply String.eqb_eq in E; subst k.
  apply String.eqb_neq in Hc; rewrite Hc; reflexivity.
Qed.

(** A column has the str dtype when it is a column of the table and holds
    an entry of that dtype. *)
Lemma has_label_str_labels (c : string) (cols : list string)
  (rws : list Row) :
  has_label c (str_labels cols rws)
  = has_label c cols && existsb (fun r => is_str (at_ r c)) rws.
Proof.
  unfold has_label, str_labels.
  induction cols as [|k cols IH]; simpl; [reflexivity|].
  destruct (String.eqb c k) eqn:E; simpl.
  - apply String.eqb_eq in E; subst k.
    destruct (existsb (fun r => is_str (at_ r c)) rws) eqn:X; simpl.
    + rewrite String.eqb_refl; reflexivity.
    + rewrite IH, andb_false_r; reflexivity.
  - destruct (existsb (fun r => is_str (at_ r k)) rws); simpl;
      rewrite ?E; exact IH.
Qed.

(** A frame without rows has no column of the str dtype. *)
Lemma str_labels_nil (cols : list string) : str_labels cols [] = [].
Proof. induction cols as [|c cols IH]; simpl; auto. Qed.

Lemma setitem_dtype (df : DataFrame) (c c' : string) (col : list value) :
  c <> c' ->
  has_label c (str_columns (setitem df c' col))
  = has_label c (str_columns df).
Proof.
  intros Hc; unfold setitem; simpl.
  destruct (existsb is_str col);
    [apply has_label_add_label_other | apply has_label_remove_label];
    exact Hc.
Qed.

(** The RangeIndex of a freshly read frame. *)
Lemma range_rows_labels (hd : list string) (start : nat)
  (recs : list (list value)) :
  map label (range_rows hd start recs) = seq start (List.length recs).
Proof.
  revert start; induction recs as [|rec recs IH]; simpl; intros start;
    [reflexivity|].
  rewrite IH; reflexivity.
Qed.

Lemma range_rows_In (hd : list string) (start : nat)
  (recs : list (list value)) (r : Row) :
  In r (range_rows hd start recs) ->
  exists rec, nth_error recs (label r - start) = Some rec
              /\ (start <= label r)%nat
              /\ r = mkRow (label r) (combine hd rec).
Proof.
  revert start; induction recs as [|rec recs IH]; simpl; intros start;
    [tauto|].
  intros [<-|Hin]; simpl.
  - exists rec; rewrite Nat.sub_diag; auto.
  - destruct (IH _ Hin) as (rec' & Hn & Hle & Hr).
    exists rec'; split; [|split; [lia|exact Hr]].
    replace (label r - start)%nat with (S (label r - S start)) by lia.
    exact Hn.
Qed.

Lemma seq_sorted (start len : nat) : StronglySorted lt (seq start len).
Proof.
  revert start; induction len as [|len IH]; simpl; intros start;
    constructor; auto.
  rewrite Forall_forall; intros y Hy; apply in_seq in Hy; lia.
Qed.

(** ** The price change of every row of [recurring] *)

Lemma annotate_fst (seen l : list Row) : map fst (annotate seen l) = l.
Proof.
  revert seen; induction l as [|r l IH]; simpl; intros seen; congruence.
Qed.

Lemma annotate_shift (seen l : list Row) :
  zip_with fsub (map amount_of l) (group_shift (map keyed seen) (map keyed l))
  = map snd (annotate seen l).
Proof.
  revert seen; induction l as [|r l IH]; simpl; intros seen; [reflexivity|].
  f_equal; apply (IH (r :: seen)).
Qed.

Lemma annotate_assign (seen l : list Row) :
  map (fun rv => mkRow (label (fst rv))
                   (assign "price_change" (snd rv) (cells (fst rv))))
    (combine l (map Float (map snd (annotate seen l))))
  = map with_price_change (annotate seen l).
Proof.
  revert seen; induction l as [|r l IH]; simpl; intros seen; [reflexivity|].
  f_equal; apply IH.
Qed.

(** Where a row of [annotate] comes from: its price change is computed
    from the rows before it. *)
Lemma annotate_In (seen l : list Row) (r : Row) (d : float64) :
  In (r, d) (annotate seen l) ->
  exists pre post,
    l = (pre ++ r :: post)%list /\ d = delta (rev pre ++ seen)%list r.
Proof.
  revert seen; induction l as [|x l IH]; simpl; intros seen; [tauto|].
  intros [E|Hin].
  - inversion E; subst; exists [], l; auto.
  - destruct (IH _ Hin) as (pre & post & -> & ->).
    exists (x :: pre), post; simpl; rewrite <- app_assoc; auto.
Qed.

Lemma annotate_app (seen pre post : list Row) (r : Row) :
  In (r, delta (rev pre ++ seen)%list r)
    (annotate seen (pre ++ r :: post)%list).
Proof.
  revert seen; induction pre as [|x pre IH]; simpl; intros seen; [auto|].
  right; rewrite <- app_assoc; apply (IH (x :: seen)).
Qed.

Lemma to_float_amount_of (r : Row) (x : float64) :
  to_float (at_ r "amount") = Ok x -> amount_of r = x.
Proof. unfold amount_of; intros ->; reflexivity. Qed.

Lemma traverse_to_float (l : list Row) (amounts : list float64) :
  traverse to_float (map (fun r => at_ r "amount") l) = Ok amounts ->
  amounts = map amount_of l.
Proof.
  revert amounts; induction l as [|r l IH]; simpl; intros amounts H.
  - inversion H; reflexivity.
  - bind_inv H. bind_inv H. inversion H; subst.
    f_equal; [symmetry; apply to_float_amount_of; assumption|auto].
Qed.

(** A column that [diff] accepts does not have the str dtype. *)
Lemma groupby_diff_dtype (df : DataFrame) (pc : list value) :
  groupby_diff df "merchant" "amount" = Ok pc ->
  has_label "amount" (str_columns df) = false.
Proof.
  unfold groupby_diff, getitem; intros H.
  destruct (has_label "merchant" (columns df)); [|discriminate].
  destruct (has_label "amount" (columns df)); [|discriminate].
  destruct (has_label "amount" (str_columns df)); [discriminate|reflexivity].
Qed.

Lemma existsb_is_str_Float (l : list float64) :
  existsb is_str (map Float l) = false.
Proof. induction l as [|x l IH]; simpl; auto. Qed.

Lemma groupby_diff_Ok_inv (df : DataFrame) (pc : list value) :
  groupby_diff df "merchant" "amount" = Ok pc ->
  has_label "amount" (columns df) = true
  /\ pc = map Float (map snd (annotate [] (rows df))).
Proof.
  unfold groupby_diff, getitem; intros H.
  destruct (has_label "merchant" (columns df)); [|discriminate].
  destruct (has_label "amount" (columns df)); [|discriminate].
  destruct (has_label "amount" (str_columns df)); [discriminate|].
  simpl in H. bind_inv H. inversion H; subst; clear H.
  apply traverse_to_float in Hx; subst x.
  rewrite combine_map_same.
  split; [reflexivity|].
  do 2 f_equal. apply (annotate_shift [] (rows df)).
Qed.

(** ** The stages of [find_subscription_leeches] *)

Section EngineFacts.

Variable read_table : string -> result Table.
Variable parse_datetime : DateParser.

Lemma dated_label (r r' : Row) :
  dated parse_datetime r r' -> label r' = label r.
Proof. intros (v & _ & ->); reflexivity. Qed.

Lemma dated_at (r r' : Row) (c : string) :
  dated parse_datetime r r' -> c <> "date" -> at_ r' c = at_ r c.
Proof.
  intros (v & _ & ->) Hc.
  rewrite (at_assign_other _ (label r)) by congruence.
  destruct r; reflexivity.
Qed.

Lemma dated_date (r r' : Row) :
  dated parse_datetime r r' ->
  to_timestamp parse_datetime (at_ r "date") = Ok (at_ r' "date").
Proof. intros (v & Hv & ->); rewrite at_assign_same; exact Hv. Qed.

Lemma dated_labels (l l' : list Row) :
  Forall2 (dated parse_datetime) l l' -> map label l' = map label l.
Proof.
  induction 1 as [|r r' l l' Hr _ IH]; simpl; [reflexivity|].
  rewrite (dated_label _ _ Hr), IH; reflexivity.
Qed.

Lemma setitem_dated (l : list Row) (ds : list value) :
  Forall2 (fun r v => to_timestamp parse_datetime (at_ r "date") = Ok v)
    l ds ->
  Forall2 (dated parse_datetime) l
    (map (fun rv => mkRow (label (fst rv))
                      (assign "date" (snd rv) (cells (fst rv))))
       (combine l ds)).
Proof.
  induction 1 as [|r v l ds Hv _ IH]; simpl; constructor; auto.
  exists v; auto.
Qed.

Lemma sort_values_dtype (df sorted : DataFrame) (by_ : list string) :
  sort_values df by_ = Ok sorted -> str_columns sorted = str_columns df.
Proof.
  unfold sort_values; destruct (find _ by_); [discriminate|].
  intros H; inversion H; reflexivity.
Qed.

(** The dtype of a column other than [date] is the one it was read
    with. *)
Lemma sorted_frame_dtype (path : string) (t : Table) (sorted : DataFrame)
  (c : string) :
  read_table path = Ok t ->
  sorted_frame read_table parse_datetime path = Ok sorted ->
  c <> "date" ->
  has_label c (str_columns sorted)
  = has_label c (header t)
    && existsb (fun r => is_str (at_ r c)) (rows (frame_of_table t)).
Proof.
  unfold sorted_frame, read_csv; intros Ht H Hc; rewrite Ht in H.
  cbn [bind] in H.
  bind_inv H. bind_inv H.
  rewrite (sort_values_dtype _ _ _ H), setitem_dtype by exact Hc.
  apply has_label_str_labels.
Qed.

Lemma sorted_frame_inv (path : string) (sorted : DataFrame) :
  sorted_frame read_table parse_datetime path = Ok sorted ->
  exists t dl,
    read_table path = Ok t
    /\ columns sorted = header t
    /\ has_label "date" (header t) = true
    /\ has_label "merchant" (header t) = true
    /\ Forall2 (dated parse_datetime) (range_rows (header t) 0 (records t)) dl
    /\ rows sorted = lexsort (rows_leb ["merchant"; "date"]) dl.
Proof.
  unfold sorted_frame, read_csv; intros H.
  bind_inv H. bind_inv Hx. inversion Hx; subst x; clear Hx.
  rename x0 into t.
  bind_inv H. unfold getitem in Hx; simpl in Hx.
  destruct (has_label "date" (header t)) eqn:Hdate; [|discriminate].
  inversion Hx; subst x; clear Hx.
  bind_inv H. apply traverse_Ok_inv, Forall2_map_l in Hx.
  apply setitem_dated in Hx.
  unfold sort_values in H; simpl in H.
  rewrite (add_label_present _ _ Hdate), Hdate in H; simpl in H.
  destruct (has_label "merchant" (header t)) eqn:Hm; simpl in H;
    [|discriminate].
  inversion H; subst sorted; simpl.
  exists t; eexists; repeat split; eauto.
Qed.

Section Sorted.

Variables (path : string) (sorted : DataFrame).
Hypothesis Hsorted : sorted_frame read_table parse_datetime path = Ok sorted.

Lemma sorted_frame_order : StronglySorted hike_order (rows sorted).
Proof.
  destruct (sorted_frame_inv _ _ Hsorted)
    as (t & dl & _ & _ & _ & _ & Hd & ->).
  apply lexsort_sorted;
    [apply rows_leb_total | apply rows_leb_trans | ].
  rewrite (dated_labels _ _ Hd), range_rows_labels; apply seq_sorted.
Qed.

Lemma sorted_frame_NoDup : NoDup (map label (rows sorted)).
Proof.
  destruct (sorted_frame_inv _ _ Hsorted)
    as (t & dl & _ & _ & _ & _ & Hd & ->).
  apply (Permutation_NoDup (l := map label dl)).
  - apply Permutation_map, Permutation_sym, lexsort_perm.
  - rewrite (dated_labels _ _ Hd), range_rows_labels; apply seq_NoDup.
Qed.

(** Every row of the sorted frame is a record of the table, found at
    the position its label names, with its date converted. *)
Lemma sorted_frame_provenance (t : Table) (r : Row) :
  read_table path = Ok t -> In r (rows sorted) ->
  exists rec, nth_error (records t) (label r) = Some rec
              /\ dated parse_datetime (raw_row t (label r) rec) r.
Proof.
  intros Ht Hr.
  destruct (sorted_frame_inv _ _ Hsorted)
    as (t' & dl & Ht' & _ & _ & _ & Hd & E).
  rewrite Ht in Ht'; inversion Ht'; subst t'; clear Ht'.
  rewrite E in Hr.
  apply (Permutation_in _ (lexsort_perm _ dl)) in Hr.
  destruct (Forall2_In_r _ _ _ _ Hd Hr) as (r0 & Hin & Hdated).
  destruct (range_rows_In _ _ _ _ Hin) as (rec & Hn & _ & Hr0).
  rewrite Nat.sub_0_r in Hn.
  rewrite (dated_label _ _ Hdated).
  exists rec; split; [exact Hn|].
  unfold raw_row; rewrite <- Hr0; exact Hdated.
Qed.

End Sorted.

(** The rows of [recurring], before [price_change] is assigned. *)
Lemma duplicated_select (df : DataFrame) (dup : list bool) :
  duplicated df "merchant" = Ok dup ->
  select df dup
  = newDataFrame (columns df) (filter (is_recurring (rows df)) (rows df))
      (str_columns df).
Proof.
  unfold duplicated, select; intros H.
  destruct (has_label "merchant" (columns df)); [|discriminate].
  inversion H; subst dup; clear H.
  f_equal; apply (select_map_mask (is_recurring (rows df))).
Qed.

Lemma recurring_frame_dtype (path : string) (rec : DataFrame) :
  recurring_frame read_table parse_datetime path = Ok rec ->
  exists sorted,
    sorted_frame read_table parse_datetime path = Ok sorted
    /\ has_label "amount" (str_columns sorted) = false
    /\ str_columns rec = remove_label "price_change" (str_columns sorted).
Proof.
  unfold recurring_frame; intros H.
  bind_inv H; rename x into sorted. bind_inv H; rename x into dup.
  bind_inv H; rename x into pc.
  rewrite (duplicated_select _ _ Hx0) in *.
  pose proof (groupby_diff_dtype _ _ Hx1) as Hd; simpl in Hd.
  apply groupby_diff_Ok_inv in Hx1; simpl in Hx1; destruct Hx1 as [Ha ->].
  inversion H; subst rec; clear H.
  exists sorted; repeat split; auto.
  unfold setitem; simpl.
  rewrite existsb_is_str_Float; reflexivity.
Qed.

Lemma recurring_frame_inv (path : string) (rec : DataFrame) :
  recurring_frame read_table parse_datetime path = Ok rec ->
  exists sorted,
    sorted_frame read_table parse_datetime path = Ok sorted
    /\ has_label "amount" (columns sorted) = true
    /\ columns rec = add_label "price_change" (columns sorted)
    /\ rows rec
       = map with_price_change
           (annotate [] (filter (is_recurring (rows sorted)) (rows sorted))).
Proof.
  unfold recurring_frame; intros H.
  bind_inv H; rename x into sorted. bind_inv H; rename x into dup.
  bind_inv H; rename x into pc.
  rewrite (duplicated_select _ _ Hx0) in *.
  apply groupby_diff_Ok_inv in Hx1; simpl in Hx1; destruct Hx1 as [Ha ->].
  inversion H; subst rec; clear H.
  exists sorted; repeat split; auto.
  unfold setitem; simpl.
  apply annotate_assign.
Qed.

(** The last stage cannot fail: the column compared with zero holds
    floats only. *)
Lemma select_positive (cols strs : list string)
  (ann : list (Row * float64)) :
  let rec := newDataFrame (add_label "price_change" cols)
               (map with_price_change ann) strs in
  (col <- getitem rec "price_change" ;;
   mask <- traverse (gt_scalar 0%Q) col ;;
   Ok (select rec mask))
  = Ok (newDataFrame (add_label "price_change" cols)
          (map with_price_change
             (filter (fun rd => fgt (snd rd) 0%Q) ann)) strs).
Proof.
  intros rec; unfold getitem; subst rec; simpl.
  rewrite has_label_added; simpl.
  rewrite map_map, traverse_map.
  rewrite (traverse_total _ (fun rd => fgt (snd rd) 0%Q)).
  - simpl; unfold select; simpl.
    rewrite select_map_map; reflexivity.
  - intros rd _; unfold at_; rewrite price_change_with_price_change.
    reflexivity.
Qed.

Lemma find_subscription_leeches_stages (path : string) :
  find_subscription_leeches read_table parse_datetime path
  = (rec <- recurring_frame read_table parse_datetime path ;;
     col <- getitem rec "price_change" ;;
     mask <- traverse (gt_scalar 0%Q) col ;;
     Ok (select rec mask)).
Proof.
  unfold find_subscription_leeches, recurring_frame, sorted_frame.
  destruct (read_csv read_table path) as [df|e]; simpl; [|reflexivity].
  destruct (getitem df "date") as [dates|e]; simpl; [|reflexivity].
  destruct (to_datetime parse_datetime dates) as [ds|e]; simpl;
    [|reflexivity].
  destruct (sort_values (setitem df "date" ds) ["merchant"; "date"])
    as [sorted|e]; simpl; [|reflexivity].
  destruct (duplicated sorted "merchant") as [dup|e]; simpl; [|reflexivity].
  destruct (groupby_diff (select sorted dup) "merchant" "amount")
    as [pc|e]; simpl; reflexivity.
Qed.

(** The hikes: the rows of [recurring] whose price change is positive. *)
Lemma find_subscription_leeches_inv (path : string) (out : DataFrame) :
  find_subscription_leeches read_table parse_datetime path = Ok out ->
  exists sorted,
    sorted_frame read_table parse_datetime path = Ok sorted
    /\ has_label "amount" (columns sorted) = true
    /\ columns out = add_label "price_change" (columns sorted)
    /\ rows out
       = map with_price_change
           (filter (fun rd => fgt (snd rd) 0%Q)
              (annotate []
                 (filter (is_recurring (rows sorted)) (rows sorted)))).
Proof.
  rewrite find_subscription_leeches_stages; intros H.
  bind_inv H; rename x into rec.
  destruct (recurring_frame_inv _ _ Hx) as (sorted & Hs & Ha & Hc & Hr).
  exists sorted; split; [exact Hs|]; split; [exact Ha|].
  destruct rec as [cols rws strs]; simpl in Hc, Hr; subst cols rws.
  rewrite select_positive in H; inversion H; subst out; auto.
Qed.

(** The dtypes of the hikes: those of the sorted frame; the amounts are
    not of the str dtype. *)
Lemma find_subscription_leeches_dtype (path : string) (out : DataFrame) :
  find_subscription_leeches read_table parse_datetime path = Ok out ->
  exists sorted,
    sorted_frame read_table parse_datetime path = Ok sorted
    /\ has_label "amount" (str_columns sorted) = false
    /\ str_columns out = remove_label "price_change" (str_columns sorted).
Proof.
  rewrite find_subscription_leeches_stages; intros H.
  bind_inv H; rename x into rec.
  destruct (recurring_frame_dtype _ _ Hx) as (sorted & Hs & Ha & Hc).
  exists sorted; split; [exact Hs|]; split; [exact Ha|].
  destruct (recurring_frame_inv _ _ Hx) as (sorted' & Hs' & _ & Hcols & Hr).
  destruct rec as [cols rws strs]; simpl in Hc, Hcols, Hr; subst cols rws strs.
  rewrite select_positive in H; inversion H; subst out; auto.
Qed.

Lemma find_subscription_leeches_recurring (path : string) (out : DataFrame) :
  find_subscription_leeches read_table parse_datetime path = Ok out ->
  exists rec, recurring_frame read_table parse_datetime path = Ok rec.
Proof.
  rewrite find_subscription_leeches_stages; intros H.
  bind_inv H; eauto.
Qed.

End EngineFacts.

(** ** Merchant partitions and the predecessor of a row *)

Lemma find_map {A B : Type} (f : B -> bool) (g : A -> B) (l : list A) :
  find f (map g l) = option_map g (find (fun a => f (g a)) l).
Proof.
  induction l as [|a l IH]; simpl; [reflexivity|].
  destruct (f (g a)); auto.
Qed.

Lemma merchant_partition_app (m : value) (l1 l2 : list Row) :
  merchant_partition m (l1 ++ l2)%list
  = (merchant_partition m l1 ++ merchant_partition m l2)%list.
Proof. apply filter_app. Qed.

Lemma merchant_partition_congr (m m' : value) (l : list Row) :
  value_eqb m m' = true -> merchant_partition m l = merchant_partition m' l.
Proof.
  intros E; apply filter_ext; intros r.
  rewrite value_eqb_sym, (value_eqb_sym _ m'); symmetry.
  rewrite value_eqb_sym in E.
  apply value_eqb_congr; exact E.
Qed.

Lemma merchant_partition_In (m : value) (l : list Row) (r : Row) :
  In r (merchant_partition m l) ->
  In r l /\ value_eqb (at_ r "merchant") m = true.
Proof. apply filter_In. Qed.

Lemma same_key_partition (l : list Row) (r : Row) :
  filter (same_key "merchant" r) l = merchant_partition (at_ r "merchant") l.
Proof. reflexivity. Qed.

Lemma is_recurring_congr (l : list Row) (r r' : Row) :
  value_eqb (at_ r "merchant") (at_ r' "merchant") = true ->
  is_recurring l r = is_recurring l r'.
Proof.
  intros E; unfold is_recurring.
  rewrite !same_key_partition, (merchant_partition_congr _ _ l E).
  reflexivity.
Qed.

(** Dropping the merchants that occur once leaves the partition of every
    other merchant as it was. *)
Lemma merchant_partition_filter_recurring (l0 l : list Row) (r : Row) :
  is_recurring l0 r = true ->
  merchant_partition (at_ r "merchant") (filter (is_recurring l0) l)
  = merchant_partition (at_ r "merchant") l.
Proof.
  intros Hr; unfold merchant_partition.
  induction l as [|y l IH]; simpl; [reflexivity|].
  destruct (value_eqb (at_ y "merchant") (at_ r "merchant")) eqn:E.
  - rewrite (is_recurring_congr l0 y r E), Hr; simpl.
    rewrite E, IH; reflexivity.
  - destruct (is_recurring l0 y); simpl; [rewrite E|]; exact IH.
Qed.

Lemma merchant_partition_recurring (l : list Row) (r : Row) :
  is_recurring l r = true ->
  merchant_partition (at_ r "merchant") (filter (is_recurring l) l)
  = merchant_partition (at_ r "merchant") l.
Proof. apply merchant_partition_filter_recurring. Qed.

Lemma NoDup_labels_filter (f : Row -> bool) (l : list Row) :
  NoDup (map label l) -> NoDup (map label (filter f l)).
Proof.
  induction l as [|r l IH]; simpl; intros H; [constructor|].
  inversion H as [|? ? Hnin Hnd]; subst.
  destruct (f r); simpl; [constructor|]; auto.
  intros Hin; apply Hnin.
  apply in_map_iff in Hin; destruct Hin as (x & Hx & Hin).
  apply filter_In in Hin; rewrite <- Hx; apply in_map, Hin.
Qed.

Lemma NoDup_labels_split (pre post : list Row) (r : Row) :
  NoDup (map label (pre ++ r :: post)%list) -> ~ In r pre.
Proof.
  rewrite map_app; simpl; intros H Hin.
  apply NoDup_remove_2 in H; apply H, in_or_app; left.
  apply in_map; exact Hin.
Qed.

Lemma NoDup_labels_eq (l : list Row) (a b : Row) :
  NoDup (map label l) -> In a l -> In b l -> label a = label b -> a = b.
Proof.
  induction l as [|x l IH]; simpl; [tauto|].
  intros H Ha Hb E; inversion H as [|? ? Hnin Hnd]; subst.
  destruct Ha as [->|Ha], Hb as [->|Hb]; auto.
  - exfalso; apply Hnin; rewrite E; apply in_map, Hb.
  - exfalso; apply Hnin; rewrite <- E; apply in_map, Ha.
Qed.

(** ** Float arithmetic *)

Lemma fsub_NaN_l (y : float64) : fsub NaN y = NaN.
Proof. destruct y; reflexivity. Qed.

Lemma fsub_NaN_r (x : float64) : fsub x NaN = NaN.
Proof. destruct x; reflexivity. Qed.

(** The conversion of an integer rounds above 2 ^ 53, and so does the
    difference of two doubles. *)
Example float64_rounding :
  double_of_Z 9007199254740993 = double_of_Z 9007199254740992
  /\ double_of_Z 9007199254740995 = double_of_Z 9007199254740996
  /\ fsub (double_of_Z 9007199254740995) (double_of_Z 9007199254740992)
     = double_of_Z 4
  /\ fsub (double_of_Z 9223372036854775807) (double_of_Z 0)
     = double_of_Z 9223372036854775808
  /\ fsub (double_of_Z 12) (double_of_Z 10) = double_of_Z 2.
Proof. repeat split; vm_compute; reflexivity. Qed.

(** A difference that compares greater than a scalar has two operands
    that are not NaN. *)
Lemma fgt_fsub_operands (x y : float64) (c : Q) :
  fgt (fsub y x) c = true -> x <> NaN /\ y <> NaN.
Proof.
  intros H; split; intros ->;
    [rewrite fsub_NaN_r in H | rewrite fsub_NaN_l in H]; discriminate.
Qed.

(** An amount that is not NaN is the operand [diff] read. *)
Lemma amount_of_to_float (r : Row) :
  amount_of r <> NaN -> to_float (at_ r "amount") = Ok (amount_of r).
Proof.
  unfold amount_of.
  destruct (to_float (at_ r "amount")) as [x|e]; [reflexivity|].
  intros H; exfalso; apply H; reflexivity.
Qed.

(** The price change is not NaN only when the row has a merchant and a
    predecessor in its partition, and is then the float64 difference with
    the amount of that predecessor. *)
Lemma delta_not_NaN (pre : list Row) (r : Row) :
  delta (rev pre) r <> NaN ->
  exists before p,
    merchant_partition (at_ r "merchant") pre = (before ++ [p])%list
    /\ isna (at_ r "merchant") = false
    /\ delta (rev pre) r = fsub (amount_of r) (amount_of p).
Proof.
  unfold delta, previous.
  destruct (isna (at_ r "merchant"));
    [rewrite fsub_NaN_r; intros H; exfalso; apply H; reflexivity|].
  rewrite find_map.
  pose proof (find_rev_filter
                (fun a => value_eqb (fst (keyed a)) (at_ r "merchant")) pre)
    as Hf.
  destruct (find _ (rev pre)) as [p|]; simpl;
    [|rewrite fsub_NaN_r; intros H; exfalso; apply H; reflexivity].
  destruct Hf as (before & Hf).
  intros _; exists before, p; auto.
Qed.

Lemma fgt_not_NaN (x : float64) (c : Q) : fgt x c = true -> x <> NaN.
Proof. intros H ->; discriminate. Qed.

Lemma delta_first (pre : list Row) (r : Row) :
  merchant_partition (at_ r "merchant") pre = [] ->
  delta (rev pre) r = NaN.
Proof.
  unfold delta, previous; intros Hp.
  destruct (isna (at_ r "merchant")); [apply fsub_NaN_r|].
  rewrite find_map.
  pose proof (find_rev_filter
                (fun a => value_eqb (fst (keyed a)) (at_ r "merchant")) pre)
    as Hf.
  destruct (find _ (rev pre)) as [p|]; simpl.
  - destruct Hf as (before & Hf).
    unfold merchant_partition in Hp; simpl in Hf; rewrite Hp in Hf.
    destruct before; discriminate.
  - apply fsub_NaN_r.
Qed.

(** The first row of a partition has no price change, wherever the frame
    is cut at that row. *)
Lemma first_of_partition_delta (l pre post rest : list Row) (m : value)
  (f : Row) :
  NoDup (map label l) ->
  merchant_partition m l = f :: rest ->
  l = (pre ++ f :: post)%list ->
  delta (rev pre) f = NaN.
Proof.
  intros Hnd Hp ->.
  assert (Hf : value_eqb (at_ f "merchant") m = true).
  { apply (merchant_partition_In m (pre ++ f :: post)%list).
    rewrite Hp; left; reflexivity. }
  apply delta_first.
  rewrite (merchant_partition_congr _ _ _ Hf).
  rewrite merchant_partition_app in Hp.
  destruct (merchant_partition m pre) as [|x xs] eqn:Hpre; [reflexivity|].
  exfalso; inversion Hp; subst x.
  apply (NoDup_labels_split _ _ _ Hnd).
  apply (merchant_partition_In m); rewrite Hpre; left; reflexivity.
Qed.

Lemma rows_leb_ext (by_ : list string) (a a' b b' : Row) :
  (forall c, In c by_ -> at_ a' c = at_ a c) ->
  (forall c, In c by_ -> at_ b' c = at_ b c) ->
  rows_leb by_ a' b' = rows_leb by_ a b.
Proof.
  induction by_ as [|c by_ IH]; simpl; intros Ha Hb; [reflexivity|].
  rewrite (Ha c), (Hb c) by auto.
  rewrite IH by auto; reflexivity.
Qed.

Lemma hike_order_with_price_change (rd1 rd2 : Row * float64) :
  hike_order (fst rd1) (fst rd2) ->
  hike_order (with_price_change rd1) (with_price_change rd2).
Proof.
  assert (E : forall x y,
             rows_leb ["merchant"; "date"] (with_price_change x)
               (with_price_change y)
             = rows_leb ["merchant"; "date"] (fst x) (fst y)).
  { intros x y; apply rows_leb_ext; intros c [<-|[<-|[]]];
      apply at_with_price_change; discriminate. }
  unfold hike_order, stable_order; rewrite !E; simpl; tauto.
Qed.

Lemma StronglySorted_map_inv {A B : Type} (R : B -> B -> Prop) (g : A -> B)
  (l : list A) :
  StronglySorted R (map g l) ->
  StronglySorted (fun a b => R (g a) (g b)) l.
Proof.
  induction l as [|a l IH]; simpl; intros H; [constructor|].
  apply StronglySorted_inv in H; destruct H as [Hs Ha].
  constructor; [auto|].
  rewrite Forall_forall in *; intros x Hx; apply Ha, in_map, Hx.
Qed.

(** * The claims *)

Section Claims.

Variable read_table : string -> result Table.
Variable parse_datetime : DateParser.
Variable json_double : Q -> string.
Variable json_string : string -> string.

(** Every hike is a row [r] of [recurring] with a price change greater
    than zero, computed from the rows before it. *)
Lemma hike_origin (path : string) (out : DataFrame) (e : Row) :
  find_subscription_leeches read_table parse_datetime path = Ok out ->
  In e (rows out) ->
  exists sorted pre r post,
    sorted_frame read_table parse_datetime path = Ok sorted
    /\ filter (is_recurring (rows sorted)) (rows sorted)
       = (pre ++ r :: post)%list
    /\ fgt (delta (rev pre) r) 0%Q = true
    /\ e = with_price_change (r, delta (rev pre) r).
Proof.
  intros Hout He.
  destruct (find_subscription_leeches_inv _ _ _ _ Hout)
    as (sorted & Hs & _ & _ & Hrows).
  rewrite Hrows in He; apply in_map_iff in He.
  destruct He as ([r d] & <- & Hin).
  apply filter_In in Hin; destruct Hin as [Hin Hpos]; simpl in Hpos.
  destruct (annotate_In _ _ _ _ Hin) as (pre & post & Hsplit & Hd).
  rewrite app_nil_r in Hd; subst d.
  exists sorted, pre, r, post; repeat split; auto.
Qed.

(** C1. For every input and every emitted hike event, the delta
    ([price_change]) compares greater than zero and is the float64
    difference of two amounts, each converted to float64: the amount of
    the triggering record minus the amount of the record right before it
    in the merchant partition of the sorted frame, which is not later in
    date. *)
Theorem C1_delta_from_immediate_predecessor
  (path : string) (out : DataFrame) (e : Row) :
  find_subscription_leeches read_table parse_datetime path = Ok out ->
  In e (rows out) ->
  exists sorted before p r after x y,
    sorted_frame read_table parse_datetime path = Ok sorted
    /\ merchant_partition (at_ e "merchant") (rows sorted)
       = (before ++ p :: r :: after)%list
    /\ e = with_price_change (r, fsub y x)
    /\ to_float (at_ p "amount") = Ok x
    /\ to_float (at_ e "amount") = Ok y
    /\ at_ e "price_change" = Float (fsub y x)
    /\ fgt (fsub y x) 0%Q = true
    /\ value_leb (at_ p "date") (at_ r "date") = true.
Proof.
  intros Hout He.
  destruct (hike_origin _ _ _ Hout He)
    as (sorted & pre & r & post & Hs & Hsplit & Hpos & ->).
  destruct (delta_not_NaN _ _ (fgt_not_NaN _ _ Hpos))
    as (before & p & Hp & _ & Hd).
  rewrite Hd in *.
  destruct (fgt_fsub_operands _ _ _ Hpos) as [Hx Hy].
  assert (Hrec : is_recurring (rows sorted) r = true).
  { assert (Hin : In r (filter (is_recurring (rows sorted)) (rows sorted))).
    { rewrite Hsplit; apply in_or_app; right; left; reflexivity. }
    apply filter_In in Hin; apply Hin. }
  assert (Hpart : merchant_partition (at_ r "merchant") (rows sorted)
                  = (before ++ p :: r
                       :: merchant_partition (at_ r "merchant") post)%list).
  { rewrite <- (merchant_partition_recurring _ _ Hrec), Hsplit.
    rewrite merchant_partition_app, Hp, <- app_assoc; simpl.
    unfold merchant_partition at 2; simpl.
    rewrite value_eqb_refl; reflexivity. }
  assert (Em : at_ (with_price_change
                      (r, fsub (amount_of r) (amount_of p))) "merchant"
               = at_ r "merchant")
    by (apply at_with_price_change; discriminate).
  exists sorted, before, p, r,
    (merchant_partition (at_ r "merchant") post), (amount_of p),
    (amount_of r).
  rewrite Em; repeat split; auto.
  - apply amount_of_to_float; exact Hx.
  - rewrite at_with_price_change by discriminate.
    apply amount_of_to_float; exact Hy.
  - apply at_assign_same.
  - pose proof (sorted_frame_order _ _ _ _ Hs) as Hord.
    apply (StronglySorted_filter _
             (fun r0 => value_eqb (at_ r0 "merchant") (at_ r "merchant")))
      in Hord.
    fold (merchant_partition (at_ r "merchant") (rows sorted)) in Hord.
    rewrite Hpart in Hord.
    apply StronglySorted_app_inv in Hord; destruct Hord as [Hle _].
    rewrite rows_leb_same_merchant in Hle; [exact Hle|].
    apply (merchant_partition_In _ pre).
    rewrite Hp; apply in_or_app; right; left; reflexivity.
Qed.

(** Sorting and converting the dates keeps the size of every merchant
    partition. *)
Lemma merchant_partition_length_dated (m : value) (l l' : list Row) :
  Forall2 (dated parse_datetime) l l' ->
  List.length (merchant_partition m l') = List.length (merchant_partition m l).
Proof.
  induction 1 as [|r r' l l' Hr _ IH]; simpl; [reflexivity|].
  rewrite (dated_at _ _ _ "merchant" Hr) by discriminate.
  destruct (value_eqb (at_ r "merchant") m); simpl; congruence.
Qed.

Lemma merchant_partition_length_sorted (path : string) (t : Table)
  (sorted : DataFrame) (m : value) :
  read_table path = Ok t ->
  sorted_frame read_table parse_datetime path = Ok sorted ->
  List.length (merchant_partition m (rows sorted))
  = List.length (merchant_partition m (rows (frame_of_table t))).
Proof.
  intros Ht Hs.
  destruct (sorted_frame_inv _ _ _ _ Hs) as (t' & dl & Ht' & _ & _ & _ & Hd & E).
  rewrite Ht in Ht'; inversion Ht'; subst t'; clear Ht'.
  rewrite E; unfold merchant_partition at 1.
  rewrite (filter_length_perm _ _ _ (lexsort_perm _ dl)).
  apply (merchant_partition_length_dated m _ _ Hd).
Qed.

Lemma recurring_NoDup (path : string) (sorted : DataFrame) :
  sorted_frame read_table parse_datetime path = Ok sorted ->
  NoDup (map label (filter (is_recurring (rows sorted)) (rows sorted))).
Proof.
  intros Hs; apply NoDup_labels_filter.
  apply (sorted_frame_NoDup _ _ _ _ Hs).
Qed.

(** C2. A merchant with exactly one record in the table contributes no
    hike event.  For a merchant with two or more records, the first row of
    its partition is marked by [duplicated], is a row of [recurring] whose
    price change is NaN, and is not a row of the output. *)
Theorem C2_single_and_first_records_excluded
  (path : string) (t : Table) (out : DataFrame) :
  read_table path = Ok t ->
  find_subscription_leeches read_table parse_datetime path = Ok out ->
  (forall m e,
      List.length (merchant_partition m (rows (frame_of_table t))) = 1%nat ->
      In e (rows out) -> value_eqb (at_ e "merchant") m = false)
  /\ exists sorted rec,
      sorted_frame read_table parse_datetime path = Ok sorted
      /\ recurring_frame read_table parse_datetime path = Ok rec
      /\ forall m f rest,
          merchant_partition m (rows sorted) = f :: rest -> rest <> [] ->
          is_recurring (rows sorted) f = true
          /\ In (with_price_change (f, NaN)) (rows rec)
          /\ forall e, In e (rows out) -> label e <> label f.
Proof.
  intros Ht Hout; split.
  - intros m e Hone He.
    destruct (hike_origin _ _ _ Hout He)
      as (sorted & pre & r & post & Hs & Hsplit & _ & ->).
    rewrite at_with_price_change by discriminate; simpl.
    destruct (value_eqb (at_ r "merchant") m) eqn:E; [exfalso|reflexivity].
    assert (Hin : In r (filter (is_recurring (rows sorted)) (rows sorted))).
    { rewrite Hsplit; apply in_or_app; right; left; reflexivity. }
    apply filter_In in Hin; destruct Hin as [_ Hrec].
    unfold is_recurring in Hrec; apply Nat.ltb_lt in Hrec.
    rewrite same_key_partition, (merchant_partition_congr _ _ _ E) in Hrec.
    rewrite (merchant_partition_length_sorted _ _ _ m Ht Hs) in Hrec.
    lia.
  - destruct (find_subscription_leeches_recurring _ _ _ _ Hout)
      as (rec & Hrec).
    destruct (recurring_frame_inv _ _ _ _ Hrec)
      as (sorted & Hs & _ & _ & Hrows).
    exists sorted, rec; split; [exact Hs|]; split; [exact Hrec|].
    intros m f rest Hpart Hrest.
    assert (Hf : In f (rows sorted)
                 /\ value_eqb (at_ f "merchant") m = true).
    { apply merchant_partition_In; rewrite Hpart; left; reflexivity. }
    destruct Hf as [Hfin Hfm].
    assert (Hdup : is_recurring (rows sorted) f = true).
    { unfold is_recurring; apply Nat.ltb_lt.
      rewrite same_key_partition, (merchant_partition_congr _ _ _ Hfm), Hpart.
      destruct rest; [congruence|simpl; lia]. }
    assert (Hpart' : merchant_partition m
                       (filter (is_recurring (rows sorted)) (rows sorted))
                     = f :: rest).
    { rewrite <- (merchant_partition_congr _ _ _ Hfm).
      rewrite (merchant_partition_recurring _ _ Hdup).
      rewrite (merchant_partition_congr _ _ _ Hfm); exact Hpart. }
    pose proof (recurring_NoDup _ _ Hs) as Hnd.
    split; [exact Hdup|]; split.
    + assert (Hin : In f (filter (is_recurring (rows sorted)) (rows sorted)))
        by (apply filter_In; auto).
      destruct (in_split _ _ Hin) as (pre & post & Hsplit).
      rewrite Hrows; apply in_map_iff.
      exists (f, NaN); split; [reflexivity|].
      rewrite <- (first_of_partition_delta _ pre post rest m f Hnd Hpart' Hsplit).
      rewrite Hsplit.
      pose proof (annotate_app [] pre post f) as Ha.
      rewrite app_nil_r in Ha; exact Ha.
    + intros e He Hlab.
      destruct (hike_origin _ _ _ Hout He)
        as (sorted' & pre & r & post & Hs' & Hsplit & Hd & ->).
      rewrite Hs in Hs'; inversion Hs'; subst sorted'; clear Hs'.
      simpl in Hlab.
      assert (Er : r = f).
      { apply (NoDup_labels_eq _ _ _ Hnd); auto.
        - rewrite Hsplit; apply in_or_app; right; left; reflexivity.
        - apply filter_In; auto. }
      subst r.
      rewrite (first_of_partition_delta _ pre post rest m f Hnd Hpart' Hsplit)
        in Hd.
      discriminate.
Qed.

(** C3. The emitted hike events are in merchant-ascending, then
    date-ascending order, and rows with the same merchant and the same date
    are in ascending order of their index label, which is the position of
    the row in the input (the sort is stable). *)
Theorem C3_hikes_sorted_and_stable
  (path : string) (t : Table) (out : DataFrame) :
  read_table path = Ok t ->
  find_subscription_leeches read_table parse_datetime path = Ok out ->
  StronglySorted hike_order (rows out)
  /\ forall e, In e (rows out) ->
       exists rec,
         nth_error (records t) (label e) = Some rec
         /\ at_ e "merchant" = at_ (raw_row t (label e) rec) "merchant"
         /\ to_timestamp parse_datetime (at_ (raw_row t (label e) rec) "date")
            = Ok (at_ e "date").
Proof.
  intros Ht Hout.
  destruct (find_subscription_leeches_inv _ _ _ _ Hout)
    as (sorted & Hs & _ & _ & Hrows).
  split.
  - rewrite Hrows.
    apply (StronglySorted_map
             (fun rd1 rd2 : Row * float64 => hike_order (fst rd1) (fst rd2)));
      [apply hike_order_with_price_change|].
    apply StronglySorted_filter, StronglySorted_map_inv.
    rewrite annotate_fst.
    apply StronglySorted_filter, (sorted_frame_order _ _ _ _ Hs).
  - intros e He.
    destruct (hike_origin _ _ _ Hout He)
      as (sorted' & pre & r & post & Hs' & Hsplit & _ & ->).
    rewrite Hs in Hs'; inversion Hs'; subst sorted'; clear Hs'.
    assert (Hin : In r (rows sorted)).
    { apply (filter_In (is_recurring (rows sorted))).
      rewrite Hsplit; apply in_or_app; right; left; reflexivity. }
    destruct (sorted_frame_provenance _ _ _ _ Hs t r Ht Hin)
      as (rec & Hn & Hd).
    exists rec; simpl; split; [exact Hn|].
    rewrite !at_with_price_change by discriminate; simpl; split.
    + apply (dated_at _ _ _ _ Hd); discriminate.
    + apply (dated_date _ _ _ Hd).
Qed.

(** ** Failures *)

Lemma analyze_transactions_Raise (path : string) (e : exn) :
  find_subscription_leeches read_table parse_datetime path = Raise e ->
  analyze_transactions read_table parse_datetime json_double json_string path
  = "Error: " ++ str e.
Proof. unfold analyze_transactions; intros ->; reflexivity. Qed.

Lemma sort_values_Ok (df : DataFrame) :
  has_label "merchant" (columns df) = true ->
  has_label "date" (columns df) = true ->
  sort_values df ["merchant"; "date"]
  = Ok (newDataFrame (columns df)
          (lexsort (rows_leb ["merchant"; "date"]) (rows df))
          (str_columns df)).
Proof. unfold sort_values; simpl; intros -> ->; reflexivity. Qed.

Lemma sort_values_KeyError (df : DataFrame) :
  has_label "merchant" (columns df) = false ->
  sort_values df ["merchant"; "date"] = Raise (KeyError "merchant").
Proof. unfold sort_values; simpl; intros ->; reflexivity. Qed.

Lemma duplicated_Ok (df : DataFrame) :
  has_label "merchant" (columns df) = true ->
  duplicated df "merchant" = Ok (map (is_recurring (rows df)) (rows df)).
Proof. unfold duplicated; intros ->; reflexivity. Qed.

Lemma groupby_diff_KeyError (df : DataFrame) :
  has_label "merchant" (columns df) = true ->
  has_label "amount" (columns df) = false ->
  groupby_diff df "merchant" "amount"
  = Raise (KeyError "Column not found: amount").
Proof. unfold groupby_diff, getitem; intros -> ->; reflexivity. Qed.

(** The date column of the frame that is read. *)
Lemma getitem_date (t : Table) :
  has_label "date" (header t) = true ->
  getitem (frame_of_table t) "date"
  = Ok (map (fun r => at_ r "date") (rows (frame_of_table t))).
Proof. unfold getitem; simpl; intros ->; reflexivity. Qed.

(** C4 (amended). When the table lacks one of the columns [date],
    [merchant], [amount], the run fails as a whole: the engine raises, and
    [analyze_transactions] returns the text "Error: " followed by the
    message of the exception, with no records.  The exception is the
    [KeyError] of the first missing column in the order date, merchant,
    amount, unless the conversion of a date that is present raises
    first. *)
Theorem C4_missing_column_error_text (path : string) (t : Table) :
  read_table path = Ok t ->
  has_label "date" (header t) && has_label "merchant" (header t)
  && has_label "amount" (header t) = false ->
  exists e,
    find_subscription_leeches read_table parse_datetime path = Raise e
    /\ analyze_transactions read_table parse_datetime json_double json_string
         path = "Error: " ++ str e
    /\ (has_label "date" (header t) = false -> e = KeyError "date")
    /\ (forall ds,
          has_label "date" (header t) = true ->
          to_datetime parse_datetime
            (map (fun r => at_ r "date") (rows (frame_of_table t))) = Ok ds ->
          (has_label "merchant" (header t) = false -> e = KeyError "merchant")
          /\ (has_label "merchant" (header t) = true ->
              e = KeyError "Column not found: amount")).
Proof.
  intros Ht Hmiss.
  assert (G : exists e,
             find_subscription_leeches read_table parse_datetime path = Raise e
             /\ (has_label "date" (header t) = false -> e = KeyError "date")
             /\ (forall ds,
                    has_label "date" (header t) = true ->
                    to_datetime parse_datetime
                      (map (fun r => at_ r "date") (rows (frame_of_table t)))
                    = Ok ds ->
                    (has_label "merchant" (header t) = false ->
                     e = KeyError "merchant")
                    /\ (has_label "merchant" (header t) = true ->
                        e = KeyError "Column not found: amount"))).
  { unfold find_subscription_leeches, read_csv; rewrite Ht; cbn [bind].
    destruct (has_label "date" (header t)) eqn:Hd.
    - rewrite (getitem_date t Hd); cbn [bind].
      destruct (to_datetime parse_datetime _) as [ds|e] eqn:Hds; cbn [bind].
      + assert (Hd' : has_label "date"
                        (columns (setitem (frame_of_table t) "date" ds)) = true)
          by (apply has_label_added).
        destruct (has_label "merchant" (header t)) eqn:Hm.
        * simpl in Hmiss.
          assert (Hm' : has_label "merchant"
                          (columns (setitem (frame_of_table t) "date" ds))
                        = true)
            by (apply has_label_add_label; exact Hm).
          rewrite (sort_values_Ok _ Hm' Hd'); cbn [bind].
          rewrite duplicated_Ok by exact Hm'; cbn [bind].
          rewrite groupby_diff_KeyError; cbn [bind].
          -- eexists; split; [reflexivity|]; split; [discriminate|].
             intros ds' _ _; split; [discriminate|reflexivity].
          -- exact Hm'.
          -- simpl; rewrite (add_label_present _ _ Hd); exact Hmiss.
        * rewrite sort_values_KeyError; cbn [bind].
          -- eexists; split; [reflexivity|]; split; [discriminate|].
             intros ds' _ _; split; [reflexivity|discriminate].
          -- simpl; rewrite (add_label_present _ _ Hd); exact Hm.
      + exists e; split; [reflexivity|]; split; [discriminate|].
        intros ds' _ Hds'; discriminate.
    - unfold getitem; simpl; rewrite Hd; simpl.
      eexists; split; [reflexivity|]; split; [reflexivity|].
      intros ds' Hd'; discriminate. }
  destruct G as (e & He & H1 & H2).
  exists e; split; [exact He|]; split; [|split; assumption].
  apply analyze_transactions_Raise; exact He.
Qed.

Lemma sorted_frame_Ok (path : string) (t : Table) (ds : list value) :
  read_table path = Ok t ->
  has_label "date" (header t) = true ->
  has_label "merchant" (header t) = true ->
  to_datetime parse_datetime
    (map (fun r => at_ r "date") (rows (frame_of_table t))) = Ok ds ->
  exists sorted,
    sorted_frame read_table parse_datetime path = Ok sorted
    /\ columns sorted = header t.
Proof.
  intros Ht Hd Hm Hds.
  unfold sorted_frame, read_csv; rewrite Ht; cbn [bind].
  rewrite (getitem_date t Hd); cbn [bind].
  rewrite Hds; cbn [bind].
  rewrite sort_values_Ok.
  - eexists; split; [reflexivity|].
    simpl; apply add_label_present; exact Hd.
  - apply has_label_add_label; exact Hm.
  - apply has_label_added.
Qed.



(** ** Results *)

Lemma add_label_nonempty (c : string) (cols : list string) :
  add_label c cols <> [].
Proof.
  unfold add_label; destruct (has_label c cols) eqn:E.
  - destruct cols; [discriminate|congruence].
  - destruct cols; discriminate.
Qed.

Lemma empty_rows (out : DataFrame) (cols : list string) :
  columns out = add_label "price_change" cols ->
  empty out = match rows out with [] => true | _ :: _ => false end.
Proof.
  unfold empty; intros ->.
  pose proof (add_label_nonempty "price_change" cols) as H.
  destruct (add_label "price_change" cols); [congruence|].
  destruct (rows out); reflexivity.
Qed.

Lemma leeches_columns (path : string) (t : Table) (out : DataFrame) :
  read_table path = Ok t ->
  find_subscription_leeches read_table parse_datetime path = Ok out ->
  columns out = add_label "price_change" (header t).
Proof.
  intros Ht Hout.
  destruct (find_subscription_leeches_inv _ _ _ _ Hout)
    as (sorted & Hs & _ & Hc & _).
  destruct (sorted_frame_inv _ _ _ _ Hs) as (t' & dl & Ht' & Hcs & _).
  rewrite Ht in Ht'; inversion Ht'; subst t'.
  rewrite Hc, Hcs; reflexivity.
Qed.

(** C6. A table with the required columns and no records is not an
    error: the engine returns a frame without rows, and
    [analyze_transactions] returns "No price hikes found.", which is not an
    error text. *)
Theorem C6_empty_input_is_not_an_error (path : string) (t : Table) :
  read_table path = Ok t ->
  records t = [] ->
  has_label "date" (header t) = true ->
  has_label "merchant" (header t) = true ->
  has_label "amount" (header t) = true ->
  find_subscription_leeches read_table parse_datetime path
  = Ok (mkDataFrame (add_label "price_change" (header t)) [])
  /\ analyze_transactions read_table parse_datetime json_double json_string
       path = "No price hikes found."
  /\ forall msg,
      analyze_transactions read_table parse_datetime json_double json_string
        path <> "Error: " ++ msg.
Proof.
  intros Ht Hrec Hd Hm Ha.
  assert (G : find_subscription_leeches read_table parse_datetime path
              = Ok (mkDataFrame (add_label "price_change" (header t)) [])).
  { unfold find_subscription_leeches, read_csv; rewrite Ht; cbn [bind].
    rewrite (getitem_date t Hd); cbn [bind].
    unfold frame_of_table; rewrite Hrec; simpl.
    rewrite str_labels_nil.
    unfold sort_values, duplicated, groupby_diff, getitem, setitem, select;
      simpl.
    rewrite (add_label_present _ _ Hd), Hd, Hm; simpl.
    repeat (rewrite ?Hm, ?Ha, ?has_label_added; simpl).
    reflexivity. }
  assert (A : analyze_transactions read_table parse_datetime json_double
                json_string path = "No price hikes found.").
  { unfold analyze_transactions; rewrite G.
    rewrite (empty_rows _ (header t)); reflexivity. }
  split; [exact G|]; split; [exact A|].
  intros msg; rewrite A; discriminate.
Qed.

(** C7 (amended). Every record of the serialized output carries the
    columns of the input table, all of them and in their order, followed by
    [price_change] when the table has no such column: the extra columns of
    the input are kept. *)
Theorem C7_records_carry_the_table_columns
  (path : string) (t : Table) (out : DataFrame) :
  read_table path = Ok t ->
  find_subscription_leeches read_table parse_datetime path = Ok out ->
  (forall members, In members (to_records out) ->
                   map fst members = add_label "price_change" (header t))
  /\ (rows out <> [] ->
      analyze_transactions read_table parse_datetime json_double json_string
        path = to_json json_double json_string out).
Proof.
  intros Ht Hout.
  pose proof (leeches_columns _ _ _ Ht Hout) as Hc.
  split.
  - intros members Hin; unfold to_records in Hin.
    apply in_map_iff in Hin; destruct Hin as (r & <- & _).
    rewrite map_map; simpl; rewrite map_id; exact Hc.
  - intros Hne; unfold analyze_transactions; rewrite Hout.
    rewrite (empty_rows _ _ Hc).
    destruct (rows out); [congruence|reflexivity].
Qed.

(** The conversion of an entry reads the clock through the parser
    only. *)
Lemma to_timestamp_clock (parse : Z -> value -> result Z) (now now' : Z)
  (v : value) :
  parse now v = parse now' v ->
  to_timestamp (mkDateParser now parse) v
  = to_timestamp (mkDateParser now' parse) v.
Proof.
  intros E; destruct v as [z|[s|s| |s m e]|s|s|ns|]; simpl; rewrite ?E;
    reflexivity.
Qed.

(** C8 (amended). The answer depends on the time of the run through the
    conversion of the dates only: two invocations on the same input, at
    two readings of the clock, return the same text when the conversion of
    every date entry of the table is the same at both readings. *)
Theorem C8_deterministic_up_to_the_clock
  (parse : Z -> value -> result Z) (now now' : Z) (path : string) :
  (forall t r,
      read_table path = Ok t -> In r (rows (frame_of_table t)) ->
      parse now (at_ r "date") = parse now' (at_ r "date")) ->
  analyze_transactions read_table (mkDateParser now parse) json_double
    json_string path
  = analyze_transactions read_table (mkDateParser now' parse) json_double
      json_string path.
Proof.
  intros Hclock.
  assert (F : find_subscription_leeches read_table (mkDateParser now parse)
                path
              = find_subscription_leeches read_table
                  (mkDateParser now' parse) path).
  { unfold find_subscription_leeches, read_csv.
    destruct (read_table path) as [t|e] eqn:Ht; cbn [bind]; [|reflexivity].
    unfold getitem.
    destruct (has_label "date" (columns (frame_of_table t))); cbn [bind];
      [|reflexivity].
    unfold to_datetime.
    rewrite (traverse_ext _ (to_timestamp (mkDateParser now' parse)));
      [reflexivity|].
    intros v Hv; apply in_map_iff in Hv; destruct Hv as (r & <- & Hr).
    apply to_timestamp_clock, (Hclock t r eq_refl Hr). }
  unfold analyze_transactions; rewrite F; reflexivity.
Qed.

Lemma merchant_partition_with_price_change (m : value)
  (ann : list (Row * float64)) :
  merchant_partition m (map with_price_change ann)
  = map with_price_change
      (filter (fun rd => value_eqb (at_ (fst rd) "merchant") m) ann).
Proof.
  induction ann as [|rd ann IH]; simpl; [reflexivity|].
  rewrite at_with_price_change by discriminate.
  destruct (value_eqb (at_ (fst rd) "merchant") m); simpl; rewrite IH;
    reflexivity.
Qed.

Lemma filter_fst_annotate (m : value) (seen l : list Row) :
  map fst (filter (fun rd : Row * float64 =>
                     value_eqb (at_ (fst rd) "merchant") m)
             (annotate seen l))
  = merchant_partition m l.
Proof.
  revert seen; induction l as [|r l IH]; simpl; intros seen; [reflexivity|].
  destruct (value_eqb (at_ r "merchant") m); simpl; rewrite IH; reflexivity.
Qed.

(** C9 (amended). For the first row of every merchant partition of
    [recurring], the price change is present in the column as the float
    NaN (not zero, not a finite number); the hike filter compares it with
    zero like every other entry, the comparison is [False], and the row is
    not in the output. *)
Theorem C9_first_row_price_change_is_NaN (path : string) (out : DataFrame) :
  find_subscription_leeches read_table parse_datetime path = Ok out ->
  exists rec,
    recurring_frame read_table parse_datetime path = Ok rec
    /\ forall m f rest,
        merchant_partition m (rows rec) = f :: rest ->
        lookup "price_change" (cells f) = Some (Float NaN)
        /\ gt_scalar 0%Q (at_ f "price_change") = Ok false
        /\ ~ In f (rows out).
Proof.
  intros Hout.
  destruct (find_subscription_leeches_recurring _ _ _ _ Hout) as (rec & Hrec).
  exists rec; split; [exact Hrec|].
  intros m f rest Hpart.
  destruct (recurring_frame_inv _ _ _ _ Hrec) as (sorted & Hs & _ & _ & Hrows).
  destruct (find_subscription_leeches_inv _ _ _ _ Hout)
    as (sorted' & Hs' & _ & _ & Hrows').
  rewrite Hs in Hs'; inversion Hs'; subst sorted'; clear Hs'.
  rewrite Hrows, merchant_partition_with_price_change in Hpart.
  set (l := filter (is_recurring (rows sorted)) (rows sorted)) in *.
  pose proof (filter_fst_annotate m [] l) as Hfst.
  destruct (filter _ (annotate [] l)) as [|[f0 d0] restann] eqn:Hfil;
    [discriminate|].
  simpl in Hpart, Hfst; inversion Hpart; subst f; clear Hpart.
  assert (Hin : In (f0, d0) (annotate [] l)).
  { apply (filter_In (fun rd : Row * float64 =>
                        value_eqb (at_ (fst rd) "merchant") m)).
    rewrite Hfil; left; reflexivity. }
  destruct (annotate_In _ _ _ _ Hin) as (pre & post & Hsplit & Hd).
  rewrite app_nil_r in Hd.
  assert (Hnan : d0 = NaN).
  { rewrite Hd.
    apply (first_of_partition_delta l pre post (map fst restann) m).
    - apply (recurring_NoDup _ _ Hs).
    - symmetry; exact Hfst.
    - exact Hsplit. }
  clear Hd; subst d0.
  assert (Hpc : lookup "price_change" (cells (with_price_change (f0, NaN)))
                = Some (Float NaN))
    by apply price_change_with_price_change.
  split; [exact Hpc|]; split.
  - unfold at_; rewrite Hpc; reflexivity.
  - rewrite Hrows'; intros Hf.
    apply in_map_iff in Hf; destruct Hf as ([r d] & E & Hf).
    apply filter_In in Hf; destruct Hf as [_ Hpos]; simpl in Hpos.
    pose proof (price_change_with_price_change (r, d)) as Hpc'.
    rewrite E, Hpc in Hpc'; inversion Hpc'; subst d; discriminate.
Qed.

(** C10. [analyze_transactions] returns a string on every path: the text
    "Error: " followed by the message when the engine raises, exactly
    "No price hikes found." when the engine returns no rows, and otherwise
    the JSON array of the records; the three cases differ in their first
    character. *)
Theorem C10_analyze_transactions_total (path : string) :
  let answer :=
    analyze_transactions read_table parse_datetime json_double json_string
      path in
  (exists e,
      find_subscription_leeches read_table parse_datetime path = Raise e
      /\ answer = "Error: " ++ str e
      /\ String.get 0 answer = Some "E"%char)
  \/ (exists out,
         find_subscription_leeches read_table parse_datetime path = Ok out
         /\ rows out = []
         /\ answer = "No price hikes found."
         /\ String.get 0 answer = Some "N"%char)
  \/ (exists out,
         find_subscription_leeches read_table parse_datetime path = Ok out
         /\ rows out <> []
         /\ answer
            = "[" ++ String.concat ","
                       (map (json_object json_double json_string)
                          (to_records out)) ++ "]"
         /\ String.get 0 answer = Some "["%char).
Proof.
  intros answer; subst answer; unfold analyze_transactions.
  destruct (find_subscription_leeches read_table parse_datetime path)
    as [out|e] eqn:Hout.
  - right.
    destruct (find_subscription_leeches_inv _ _ _ _ Hout)
      as (sorted & _ & _ & Hc & _).
    rewrite (empty_rows _ _ Hc).
    destruct (rows out) as [|r rs] eqn:Hr.
    + left; exists out; auto.
    + right; exists out; rewrite Hr; repeat split; auto; discriminate.
  - left; exists e; auto.
Qed.

End Claims.

(** * The claims on the sample tables *)

(** Scenario A of the specification: one hike, of merchant A, from 10 to
    12 on the second date. *)
Example scenario_A_result : leeches_of scenario_A = Ok scenario_A_hikes.
Proof. vm_compute; reflexivity. Qed.

(** Scenario B of the specification: the decrease from 20 to 15 is not a
    hike, the increase from 15 to 30 is. *)
Example scenario_B_result : leeches_of scenario_B = Ok scenario_B_hikes.
Proof. vm_compute; reflexivity. Qed.

(** C1, as stated, fails on amounts above 2 ^ 53: the amounts are three
    apart and the price change of the hike is 4. *)
Lemma C1_difference_is_rounded :
  leeches_of large_amounts = Ok large_amounts_hikes
  /\ rows large_amounts_hikes = [large_amounts_hike]
  /\ at_ large_amounts_hike "amount" = Int 9007199254740995
  /\ at_ large_amounts_hike "price_change" = Float (double_of_Z 4)
  /\ (9007199254740995 - 9007199254740992 = 3)%Z
  /\ double_of_Z 4 <> double_of_Z 3.
Proof.
  split; [vm_compute; reflexivity|].
  repeat split; discriminate.
Qed.

(** Scenario A: the hike of merchant A is the step from 10 to 12. *)
Lemma C1_scenario_A :
  exists sorted before p r after x y,
    sorted_of scenario_A = Ok sorted
    /\ merchant_partition (at_ scenario_A_hike "merchant") (rows sorted)
       = (before ++ p :: r :: after)%list
    /\ scenario_A_hike = with_price_change (r, fsub y x)
    /\ to_float (at_ p "amount") = Ok x
    /\ to_float (at_ scenario_A_hike "amount") = Ok y
    /\ at_ scenario_A_hike "price_change" = Float (fsub y x)
    /\ fgt (fsub y x) 0%Q = true
    /\ value_leb (at_ p "date") (at_ r "date") = true.
Proof.
  apply (C1_delta_from_immediate_predecessor
           (single_file "tx.csv" scenario_A) iso_parse_datetime "tx.csv"
           scenario_A_hikes scenario_A_hike).
  - vm_compute; reflexivity.
  - simpl; left; reflexivity.
Defined.

(** Scenario A: B occurs once and is excluded; the first row of A is
    marked and has no price change. *)
Lemma C2_scenario_A :
  (forall m e,
      List.length (merchant_partition m (rows (frame_of_table scenario_A)))
      = 1%nat ->
      In e (rows scenario_A_hikes) -> value_eqb (at_ e "merchant") m = false)
  /\ exists sorted rec,
      sorted_of scenario_A = Ok sorted
      /\ recurring_of scenario_A = Ok rec
      /\ forall m f rest,
          merchant_partition m (rows sorted) = f :: rest -> rest <> [] ->
          is_recurring (rows sorted) f = true
          /\ In (with_price_change (f, NaN)) (rows rec)
          /\ forall e, In e (rows scenario_A_hikes) -> label e <> label f.
Proof.
  apply (C2_single_and_first_records_excluded
           (single_file "tx.csv" scenario_A) iso_parse_datetime "tx.csv"
           scenario_A scenario_A_hikes).
  - reflexivity.
  - vm_compute; reflexivity.
Defined.

(** Three charges on one day: the hikes keep the order of the input. *)
Lemma C3_same_day :
  StronglySorted hike_order (rows same_day_hikes)
  /\ forall e, In e (rows same_day_hikes) ->
       exists rec,
         nth_error (records same_day) (label e) = Some rec
         /\ at_ e "merchant" = at_ (raw_row same_day (label e) rec) "merchant"
         /\ to_timestamp iso_parse_datetime
              (at_ (raw_row same_day (label e) rec) "date")
            = Ok (at_ e "date").
Proof.
  apply (C3_hikes_sorted_and_stable
           (single_file "tx.csv" same_day) iso_parse_datetime "tx.csv").
  - reflexivity.
  - vm_compute; reflexivity.
Defined.

(** C4, as stated, fails on a table without [amount]: what comes back is a
    message text, not a typed error. *)
Lemma C4_missing_amount_is_text :
  has_label "amount" (header missing_amount) = false
  /\ run missing_amount = "Error: 'Column not found: amount'"
  /\ is_error_text (run missing_amount) = true.
Proof. vm_compute; auto. Qed.

(** Without [amount] the engine raises the [KeyError] of the column and
    the answer is its text. *)
Lemma C4_missing_amount :
  exists e,
    leeches_of missing_amount = Raise e
    /\ run missing_amount = "Error: " ++ str e
    /\ (has_label "date" (header missing_amount) = false ->
        e = KeyError "date")
    /\ (forall ds,
          has_label "date" (header missing_amount) = true ->
          to_datetime iso_parse_datetime
            (map (fun r => at_ r "date")
               (rows (frame_of_table missing_amount))) = Ok ds ->
          (has_label "merchant" (header missing_amount) = false ->
           e = KeyError "merchant")
          /\ (has_label "merchant" (header missing_amount) = true ->
              e = KeyError "Column not found: amount")).
Proof.
  apply (C4_missing_column_error_text
           (single_file "tx.csv" missing_amount) iso_parse_datetime
           decimal_json_double plain_json_string "tx.csv" missing_amount).
  - reflexivity.
  - reflexivity.
Defined.


(** In an object column, amounts that are text pass when no merchant
    repeats: nothing is subtracted. *)
Example object_amounts_result :
  (exists r e,
      In r (rows (frame_of_table object_amounts))
      /\ to_float (at_ r "amount") = Raise e)
  /\ run object_amounts = "No price hikes found.".
Proof.
  split; [|vm_compute; auto].
  eexists; eexists; split; [left; reflexivity|reflexivity].
Qed.


(** A header without records gives "No price hikes found.". *)
Lemma C6_no_records :
  leeches_of no_records
  = Ok (mkDataFrame (add_label "price_change" (header no_records)) [])
  /\ run no_records = "No price hikes found."
  /\ forall msg, run no_records <> "Error: " ++ msg.
Proof.
  apply (C6_empty_input_is_not_an_error
           (single_file "tx.csv" no_records) iso_parse_datetime
           decimal_json_double plain_json_string "tx.csv" no_records);
    reflexivity.
Defined.

(** C7, as stated, fails on a table with one more column: the records
    carry [date], [merchant], [amount], [note] and [price_change]. *)
Lemma C7_note_is_kept :
  leeches_of with_note = Ok with_note_hikes
  /\ map (map fst) (to_records with_note_hikes)
     = [["date"; "merchant"; "amount"; "note"; "price_change"]]
  /\ map (map fst) (to_records with_note_hikes)
     <> [["merchant"; "previous_amount"; "new_amount"; "delta";
          "occurred_at"]].
Proof.
  split; [vm_compute; reflexivity|]; split; [reflexivity|discriminate].
Qed.

(** The records of the table with a note carry its four columns and
    [price_change]. *)
Lemma C7_with_note :
  (forall members, In members (to_records with_note_hikes) ->
                   map fst members
                   = add_label "price_change" (header with_note))
  /\ (rows with_note_hikes <> [] ->
      run with_note
      = to_json decimal_json_double plain_json_string with_note_hikes).
Proof.
  apply (C7_records_carry_the_table_columns
           (single_file "tx.csv" with_note) iso_parse_datetime
           decimal_json_double plain_json_string "tx.csv").
  - reflexivity.
  - vm_compute; reflexivity.
Defined.

(** C8, as stated, fails on a table with a charge dated [now]: two
    invocations one minute apart give two texts. *)
Lemma C8_now_reads_the_clock :
  run_at 1717243200000000000 charged_now
  = "[{" ++ plain_json_string "date" ++ ":1717243200000,"
    ++ plain_json_string "merchant" ++ ":" ++ plain_json_string "A" ++ ","
    ++ plain_json_string "amount" ++ ":12,"
    ++ plain_json_string "price_change" ++ ":2.0}]"
  /\ run_at 1717243260000000000 charged_now
     = "[{" ++ plain_json_string "date" ++ ":1717243260000,"
       ++ plain_json_string "merchant" ++ ":" ++ plain_json_string "A" ++ ","
       ++ plain_json_string "amount" ++ ":12,"
       ++ plain_json_string "price_change" ++ ":2.0}]"
  /\ run_at 1717243200000000000 charged_now
     <> run_at 1717243260000000000 charged_now.
Proof.
  split; [vm_compute; reflexivity|].
  split; [vm_compute; reflexivity|].
  vm_compute; discriminate.
Qed.

(** Scenario A has no date that reads the clock: the answer is the same
    one minute later. *)
Lemma C8_scenario_A_one_minute_later :
  run_at 1717243200000000000 scenario_A
  = run_at 1717243260000000000 scenario_A.
Proof.
  apply (C8_deterministic_up_to_the_clock
           (single_file "tx.csv" scenario_A) decimal_json_double
           plain_json_string iso_parse_entry 1717243200000000000
           1717243260000000000 "tx.csv").
  intros t r Ht Hr; vm_compute in Ht; inversion Ht; subst t; clear Ht.
  simpl in Hr.
  destruct Hr as [<-|[<-|[<-|[<-|[]]]]]; reflexivity.
Defined.

(** C9, as stated, fails in scenario A: the first row of merchant A has a
    [price_change] entry, the float NaN, and the filter compares it with
    zero. *)
Lemma C9_first_row_has_NaN :
  exists rec f rest,
    recurring_of scenario_A = Ok rec
    /\ merchant_partition (Str "A") (rows rec) = f :: rest
    /\ lookup "price_change" (cells f) = Some (Float NaN)
    /\ lookup "price_change" (cells f) <> None
    /\ gt_scalar 0%Q (at_ f "price_change") = Ok false.
Proof.
  do 3 eexists; split; [vm_compute; reflexivity|].
  split; [vm_compute; reflexivity|].
  split; [reflexivity|]; split; [discriminate|reflexivity].
Qed.

(** Scenario A: the first row of every partition of [recurring] holds
    NaN and is filtered out by the comparison. *)
Lemma C9_scenario_A :
  exists rec,
    recurring_of scenario_A = Ok rec
    /\ forall m f rest,
        merchant_partition m (rows rec) = f :: rest ->
        lookup "price_change" (cells f) = Some (Float NaN)
        /\ gt_scalar 0%Q (at_ f "price_change") = Ok false
        /\ ~ In f (rows scenario_A_hikes).
Proof.
  apply (C9_first_row_price_change_is_NaN
           (single_file "tx.csv" scenario_A) iso_parse_datetime "tx.csv").
  vm_compute; reflexivity.
Defined.

(** * Further properties of the engine *)

(** ** Cutting a list at an element that occurs once *)

Lemma split_unique {A : Type} (x : A) (l1 l2 l1' l2' : list A) :
  ~ In x l1 -> ~ In x l1' ->
  (l1 ++ x :: l2 = l1' ++ x :: l2')%list -> l1 = l1' /\ l2 = l2'.
Proof.
  revert l1'; induction l1 as [|a l1 IH]; intros [|a' l1'] H1 H2 E;
    simpl in *.
  - inversion E; auto.
  - inversion E; subst; exfalso; apply H2; auto.
  - inversion E; subst; exfalso; apply H1; auto.
  - inversion E; subst a'.
    destruct (IH l1') as [-> ->]; auto.
Qed.

Lemma find_rev_last {A : Type} (f : A -> bool) (l before : list A) (p : A) :
  filter f l = (before ++ [p])%list -> find f (rev l) = Some p.
Proof.
  intros E; pose proof (find_rev_filter f l) as H.
  destruct (find f (rev l)) as [p'|].
  - destruct H as (before' & H); rewrite H in E.
    apply app_inj_tail in E; destruct E as [_ ->]; reflexivity.
  - rewrite H in E; destruct before; discriminate.
Qed.

Lemma NoDup_map_filter {A B : Type} (h : A -> B) (g : A -> bool)
  (l : list A) :
  NoDup (map h l) -> NoDup (map h (filter g l)).
Proof.
  induction l as [|a l IH]; simpl; intros H; [constructor|].
  inversion H as [|? ? Hnin Hnd]; subst.
  destruct (g a); simpl; [constructor|]; auto.
  intros Hin; apply Hnin.
  apply in_map_iff in Hin; destruct Hin as (x & Hx & Hin).
  apply filter_In in Hin; rewrite <- Hx; apply in_map, Hin.
Qed.

Lemma filter_filter_length {A : Type} (f g : A -> bool) (l : list A) :
  (List.length (filter f (filter g l)) <= List.length (filter f l))%nat.
Proof.
  induction l as [|a l IH]; simpl; [lia|].
  destruct (g a), (f a) eqn:F; simpl; rewrite ?F; simpl; lia.
Qed.

Lemma filter_comm {A : Type} (f g : A -> bool) (l : list A) :
  filter f (filter g l) = filter g (filter f l).
Proof.
  induction l as [|a l IH]; simpl; [reflexivity|].
  destruct (g a) eqn:G, (f a) eqn:F; simpl; rewrite ?G, ?F, IH; reflexivity.
Qed.

(** ** The price change of a row that has a predecessor *)

Lemma delta_after (pre before : list Row) (p r : Row) :
  merchant_partition (at_ r "merchant") pre = (before ++ [p])%list ->
  isna (at_ r "merchant") = false ->
  delta (rev pre) r = fsub (amount_of r) (amount_of p).
Proof.
  intros Hp Hna; unfold delta, previous; rewrite Hna, find_map.
  rewrite (find_rev_last
             (fun a => value_eqb (fst (keyed a)) (at_ r "merchant"))
             pre before p Hp).
  reflexivity.
Qed.

Lemma delta_isna (seen : list Row) (r : Row) :
  isna (at_ r "merchant") = true -> delta seen r = NaN.
Proof.
  intros Hna; unfold delta, previous; rewrite Hna.
  apply fsub_NaN_r.
Qed.

(** The place of a row of the sorted frame among the rows of
    [recurring], when it has a predecessor in its merchant partition. *)
Lemma recurring_position (l before after : list Row) (p r : Row) :
  NoDup (map label l) ->
  merchant_partition (at_ r "merchant") l
  = (before ++ p :: r :: after)%list ->
  exists pre post,
    filter (is_recurring l) l = (pre ++ r :: post)%list
    /\ merchant_partition (at_ r "merchant") pre = (before ++ [p])%list
    /\ forall pre' post',
        filter (is_recurring l) l = (pre' ++ r :: post')%list -> pre' = pre.
Proof.
  intros Hnd Hpart.
  assert (Hr : In r l).
  { apply (merchant_partition_In (at_ r "merchant")).
    rewrite Hpart; apply in_or_app; right; right; left; reflexivity. }
  assert (Hrec : is_recurring l r = true).
  { unfold is_recurring; apply Nat.ltb_lt.
    rewrite same_key_partition, Hpart, length_app; simpl; lia. }
  pose proof (NoDup_labels_filter (is_recurring l) l Hnd) as Hnd'.
  assert (Hin : In r (filter (is_recurring l) l)) by (apply filter_In; auto).
  destruct (in_split _ _ Hin) as (pre & post & Hsplit).
  exists pre, post; split; [exact Hsplit|].
  assert (Hcut : forall pre' post',
             filter (is_recurring l) l = (pre' ++ r :: post')%list ->
             ~ In r pre').
  { intros pre' post' E; apply (NoDup_labels_split pre' post').
    rewrite <- E; exact Hnd'. }
  split.
  - pose proof (merchant_partition_recurring l r Hrec) as E.
    rewrite Hsplit, merchant_partition_app, Hpart in E; simpl in E.
    unfold merchant_partition at 2 in E; simpl in E.
    rewrite value_eqb_refl in E.
    fold (merchant_partition (at_ r "merchant") post) in E.
    replace (before ++ p :: r :: after)%list
      with ((before ++ [p]) ++ r :: after)%list in E
      by (rewrite <- app_assoc; reflexivity).
    apply split_unique in E; [apply E| |].
    + intros H; apply merchant_partition_In in H.
      apply (Hcut pre post Hsplit), H.
    + apply (NoDup_labels_split _ after).
      rewrite <- app_assoc; simpl; rewrite <- Hpart.
      apply NoDup_labels_filter, Hnd.
  - intros pre' post' E.
    rewrite Hsplit in E.
    apply split_unique in E; [symmetry; apply E| |].
    + apply (Hcut pre post Hsplit).
    + apply (Hcut pre' post'); rewrite Hsplit; exact E.
Qed.

Section Extras.

Variable read_table : string -> result Table.
Variable parse_datetime : DateParser.
Variable json_double : Q -> string.
Variable json_string : string -> string.

(** A row whose float64 difference with its predecessor compares greater
    than zero is emitted. *)
Lemma increase_is_emitted
  (path : string) (out sorted : DataFrame) (before after : list Row)
  (p r : Row) (x y : float64) :
  find_subscription_leeches read_table parse_datetime path = Ok out ->
  sorted_frame read_table parse_datetime path = Ok sorted ->
  merchant_partition (at_ r "merchant") (rows sorted)
  = (before ++ p :: r :: after)%list ->
  isna (at_ r "merchant") = false ->
  to_float (at_ p "amount") = Ok x ->
  to_float (at_ r "amount") = Ok y ->
  fgt (fsub y x) 0%Q = true ->
  In (with_price_change (r, fsub y x)) (rows out).
Proof.
  intros Hout Hs Hpart Hna Hx Hy Hpos.
  pose proof (sorted_frame_NoDup _ _ _ _ Hs) as Hnd.
  destruct (recurring_position _ _ _ _ _ Hnd Hpart)
    as (pre & post & Hsplit & Hpre & _).
  destruct (find_subscription_leeches_inv _ _ _ _ Hout)
    as (sorted' & Hs' & _ & _ & Hrows).
  rewrite Hs in Hs'; inversion Hs'; subst sorted'; clear Hs'.
  rewrite Hrows; apply in_map_iff.
  exists (r, fsub y x); split; [reflexivity|].
  apply filter_In; split; [|exact Hpos].
  rewrite Hsplit.
  pose proof (annotate_app [] pre post r) as Hin.
  rewrite app_nil_r, (delta_after _ _ _ _ Hpre Hna) in Hin.
  rewrite (to_float_amount_of _ _ Hx), (to_float_amount_of _ _ Hy) in Hin.
  exact Hin.
Qed.

(** An emitted row has a float64 difference with its predecessor that
    compares greater than zero. *)
Lemma emitted_is_increase
  (path : string) (out sorted : DataFrame) (before after : list Row)
  (p r e : Row) :
  find_subscription_leeches read_table parse_datetime path = Ok out ->
  sorted_frame read_table parse_datetime path = Ok sorted ->
  merchant_partition (at_ r "merchant") (rows sorted)
  = (before ++ p :: r :: after)%list ->
  In e (rows out) -> label e = label r ->
  isna (at_ r "merchant") = false
  /\ exists x y,
      to_float (at_ p "amount") = Ok x
      /\ to_float (at_ r "amount") = Ok y
      /\ fgt (fsub y x) 0%Q = true
      /\ e = with_price_change (r, fsub y x).
Proof.
  intros Hout Hs Hpart He Hlab.
  pose proof (sorted_frame_NoDup _ _ _ _ Hs) as Hnd.
  destruct (recurring_position _ _ _ _ _ Hnd Hpart)
    as (pre & post & Hsplit & Hpre & Huniq).
  destruct (hike_origin _ _ _ _ _ Hout He)
    as (sorted' & pre' & r' & post' & Hs' & Hsplit' & Hpos & ->).
  rewrite Hs in Hs'; inversion Hs'; subst sorted'; clear Hs'.
  simpl in Hlab.
  assert (Er : r' = r).
  { apply (NoDup_labels_eq (filter (is_recurring (rows sorted))
                              (rows sorted)));
      auto using NoDup_labels_filter.
    - rewrite Hsplit'; apply in_or_app; right; left; reflexivity.
    - rewrite Hsplit; apply in_or_app; right; left; reflexivity. }
  subst r'.
  rewrite (Huniq _ _ Hsplit') in *.
  destruct (isna (at_ r "merchant")) eqn:Hna.
  { rewrite (delta_isna _ _ Hna) in Hpos; discriminate. }
  split; [reflexivity|].
  rewrite (delta_after _ _ _ _ Hpre Hna) in *.
  destruct (fgt_fsub_operands _ _ _ Hpos) as [Hx Hy].
  exists (amount_of p), (amount_of r);
    repeat split; auto using amount_of_to_float.
Qed.


(** X2. A row whose merchant is missing is never emitted, however often
    the missing merchant occurs. *)
Theorem X2_missing_merchant_never_emitted
  (path : string) (out : DataFrame) (e : Row) :
  find_subscription_leeches read_table parse_datetime path = Ok out ->
  In e (rows out) -> isna (at_ e "merchant") = false.
Proof.
  intros Hout He.
  destruct (hike_origin _ _ _ _ _ Hout He)
    as (sorted & pre & r & post & _ & _ & Hd & ->).
  rewrite at_with_price_change by discriminate; simpl.
  destruct (isna (at_ r "merchant")) eqn:Hna; [|reflexivity].
  rewrite (delta_isna _ _ Hna) in Hd; discriminate.
Qed.

Lemma leeches_labels (l : list (Row * float64)) :
  map label (map with_price_change l) = map (fun rd => label (fst rd)) l.
Proof. rewrite map_map; reflexivity. Qed.

(** X3. Every record of the table yields at most one hike: the index
    labels of the emitted rows are pairwise distinct, and each is the
    position of a record of the table. *)
Theorem X3_one_hike_per_record
  (path : string) (t : Table) (out : DataFrame) :
  read_table path = Ok t ->
  find_subscription_leeches read_table parse_datetime path = Ok out ->
  NoDup (map label (rows out))
  /\ forall e, In e (rows out) ->
               (label e < List.length (records t))%nat.
Proof.
  intros Ht Hout; split.
  - destruct (find_subscription_leeches_inv _ _ _ _ Hout)
      as (sorted & Hs & _ & _ & Hrows).
    rewrite Hrows, leeches_labels.
    apply (NoDup_map_filter (fun rd : Row * float64 => label (fst rd))).
    rewrite <- (map_map fst label), annotate_fst.
    apply NoDup_labels_filter, (sorted_frame_NoDup _ _ _ _ Hs).
  - intros e He.
    destruct (hike_origin _ _ _ _ _ Hout He)
      as (sorted & pre & r & post & Hs & Hsplit & _ & ->).
    assert (Hin : In r (rows sorted)).
    { apply (filter_In (is_recurring (rows sorted))).
      rewrite Hsplit; apply in_or_app; right; left; reflexivity. }
    destruct (sorted_frame_provenance _ _ _ _ Hs t r Ht Hin)
      as (rec & Hn & _).
    simpl; apply nth_error_Some; congruence.
Qed.

(** The first row of a merchant partition of [annotate] has no price
    change. *)
Lemma annotate_partition_head (l : list Row) (m : value) (f0 : Row)
  (d0 : float64) (rest : list (Row * float64)) :
  NoDup (map label l) ->
  filter (fun rd : Row * float64 => value_eqb (at_ (fst rd) "merchant") m)
    (annotate [] l) = (f0, d0) :: rest ->
  d0 = NaN.
Proof.
  intros Hnd Hfil.
  pose proof (filter_fst_annotate m [] l) as Hfst.
  rewrite Hfil in Hfst; simpl in Hfst.
  assert (Hin : In (f0, d0) (annotate [] l)).
  { apply (filter_In (fun rd : Row * float64 =>
                        value_eqb (at_ (fst rd) "merchant") m)).
    rewrite Hfil; left; reflexivity. }
  destruct (annotate_In _ _ _ _ Hin) as (pre & post & Hsplit & ->).
  rewrite app_nil_r.
  apply (first_of_partition_delta l pre post (map fst rest) m); auto.
Qed.

(** X4. A merchant with k records in the table yields at most k - 1
    hikes. *)
Theorem X4_hikes_per_merchant_bound
  (path : string) (t : Table) (out : DataFrame) (m : value) :
  read_table path = Ok t ->
  find_subscription_leeches read_table parse_datetime path = Ok out ->
  (List.length (merchant_partition m (rows out))
   <= List.length (merchant_partition m (rows (frame_of_table t))) - 1)%nat.
Proof.
  intros Ht Hout.
  destruct (find_subscription_leeches_inv _ _ _ _ Hout)
    as (sorted & Hs & _ & _ & Hrows).
  rewrite <- (merchant_partition_length_sorted _ _ _ _ _ m Ht Hs).
  rewrite Hrows, merchant_partition_with_price_change, length_map.
  rewrite filter_comm.
  set (l := filter (is_recurring (rows sorted)) (rows sorted)).
  assert (Hl : (List.length (merchant_partition m l)
                <= List.length (merchant_partition m (rows sorted)))%nat)
    by apply filter_filter_length.
  pose proof (filter_fst_annotate m [] l) as Hfst.
  pose proof (recurring_NoDup _ _ _ _ Hs) as Hnd; fold l in Hnd.
  destruct (filter _ (annotate [] l)) as [|[f0 d0] rest] eqn:Hfil.
  - simpl; lia.
  - rewrite (annotate_partition_head _ _ _ _ _ Hnd Hfil); simpl.
    pose proof (filter_length_le (fun rd : Row * float64 => fgt (snd rd) 0%Q)
                  rest) as Hle.
    apply (f_equal (@List.length Row)) in Hfst.
    simpl in Hfst; rewrite length_map in Hfst.
    lia.
Qed.

(** X5. An emitted row carries the fields of its record unchanged, the
    extra columns included: only [date] is converted and [price_change]
    is assigned. *)
Theorem X5_hike_keeps_the_record_fields
  (path : string) (t : Table) (out : DataFrame) (e : Row) :
  read_table path = Ok t ->
  find_subscription_leeches read_table parse_datetime path = Ok out ->
  In e (rows out) ->
  exists rec,
    nth_error (records t) (label e) = Some rec
    /\ forall c, c <> "date" -> c <> "price_change" ->
                 at_ e c = at_ (raw_row t (label e) rec) c.
Proof.
  intros Ht Hout He.
  destruct (hike_origin _ _ _ _ _ Hout He)
    as (sorted & pre & r & post & Hs & Hsplit & _ & ->).
  assert (Hin : In r (rows sorted)).
  { apply (filter_In (is_recurring (rows sorted))).
    rewrite Hsplit; apply in_or_app; right; left; reflexivity. }
  destruct (sorted_frame_provenance _ _ _ _ Hs t r Ht Hin) as (rec & Hn & Hd).
  exists rec; simpl; split; [exact Hn|].
  intros c Hc1 Hc2.
  rewrite at_with_price_change by assumption; simpl.
  apply (dated_at _ _ _ _ Hd); assumption.
Qed.

(** ** When the engine succeeds *)

Lemma traverse_all_Ok {A B : Type} (f : A -> result B) (l : list A) :
  (forall a, In a l -> exists b, f a = Ok b) ->
  exists bs, traverse f l = Ok bs.
Proof.
  induction l as [|a l IH]; simpl; intros H; [eauto|].
  destruct (H a (or_introl eq_refl)) as (b & ->); simpl.
  destruct IH as (bs & ->); [auto|]; simpl; eauto.
Qed.

Lemma to_float_Ok_amount_of (r : Row) :
  (exists x, to_float (at_ r "amount") = Ok x) ->
  to_float (at_ r "amount") = Ok (amount_of r).
Proof. intros (x & Hx); unfold amount_of; rewrite Hx; reflexivity. Qed.

Lemma groupby_diff_Ok (df : DataFrame) :
  has_label "merchant" (columns df) = true ->
  has_label "amount" (columns df) = true ->
  has_label "amount" (str_columns df) = false ->
  (forall r, In r (rows df) -> exists x, to_float (at_ r "amount") = Ok x) ->
  groupby_diff df "merchant" "amount"
  = Ok (map Float (map snd (annotate [] (rows df)))).
Proof.
  intros Hm Ha Hs Hnum.
  unfold groupby_diff, getitem; rewrite Hm, Ha, Hs; cbn [bind].
  rewrite traverse_map, (traverse_total _ amount_of)
    by (intros r Hr; apply to_float_Ok_amount_of, Hnum, Hr).
  cbn [bind]; rewrite combine_map_same.
  do 3 f_equal; apply (annotate_shift [] (rows df)).
Qed.

Lemma groupby_diff_numeric (df : DataFrame) (pc : list value) (r : Row) :
  groupby_diff df "merchant" "amount" = Ok pc ->
  In r (rows df) -> exists x, to_float (at_ r "amount") = Ok x.
Proof.
  unfold groupby_diff, getitem; intros H Hr.
  destruct (has_label "merchant" (columns df)); [|discriminate].
  destruct (has_label "amount" (columns df)); [|discriminate].
  destruct (has_label "amount" (str_columns df)); [discriminate|].
  cbn [bind] in H; bind_inv H.
  apply traverse_Ok_inv, Forall2_map_l in Hx.
  destruct (Forall2_In_l _ _ _ _ Hx Hr) as (b & _ & Hb); eauto.
Qed.

Lemma recurring_rows_numeric (path : string) (out sorted : DataFrame)
  (r : Row) :
  find_subscription_leeches read_table parse_datetime path = Ok out ->
  sorted_frame read_table parse_datetime path = Ok sorted ->
  In r (filter (is_recurring (rows sorted)) (rows sorted)) ->
  exists x, to_float (at_ r "amount") = Ok x.
Proof.
  intros Hout Hs Hr.
  destruct (find_subscription_leeches_recurring _ _ _ _ Hout) as (rec & Hrec).
  unfold recurring_frame in Hrec; rewrite Hs in Hrec; cbn [bind] in Hrec.
  bind_inv Hrec; rename x into dup. bind_inv Hrec; rename x into pc.
  rewrite (duplicated_select _ _ Hx) in Hx0.
  apply (groupby_diff_numeric _ _ r Hx0); exact Hr.
Qed.


(** A row of the sorted frame and the row of the table it comes from. *)
Lemma sorted_frame_row (path : string) (t : Table) (sorted : DataFrame) :
  read_table path = Ok t ->
  sorted_frame read_table parse_datetime path = Ok sorted ->
  (forall r, In r (rows (frame_of_table t)) ->
             exists r', In r' (rows sorted) /\ dated parse_datetime r r')
  /\ (forall r', In r' (rows sorted) ->
                 exists r, In r (rows (frame_of_table t))
                           /\ dated parse_datetime r r').
Proof.
  intros Ht Hs.
  destruct (sorted_frame_inv _ _ _ _ Hs)
    as (t' & dl & Ht' & _ & _ & _ & Hdl & Erows).
  rewrite Ht in Ht'; inversion Ht'; subst t'; clear Ht'.
  rewrite Erows; split.
  - intros r Hr.
    destruct (Forall2_In_l _ _ _ _ Hdl Hr) as (r' & Hr' & Hd).
    exists r'; split; [|exact Hd].
    apply (Permutation_in _ (Permutation_sym (lexsort_perm _ dl))), Hr'.
  - intros r' Hr'.
    apply (Permutation_in _ (lexsort_perm _ dl)) in Hr'.
    destruct (Forall2_In_r _ _ _ _ Hdl Hr') as (r & Hr & Hd); eauto.
Qed.


Lemma find_subscription_leeches_Ok (path : string) (sorted : DataFrame) :
  sorted_frame read_table parse_datetime path = Ok sorted ->
  has_label "merchant" (columns sorted) = true ->
  has_label "amount" (columns sorted) = true ->
  has_label "amount" (str_columns sorted) = false ->
  (forall r, In r (filter (is_recurring (rows sorted)) (rows sorted)) ->
             exists x, to_float (at_ r "amount") = Ok x) ->
  exists out,
    find_subscription_leeches read_table parse_datetime path = Ok out.
Proof.
  intros Hs Hm Ha Hstr Hnum.
  rewrite find_subscription_leeches_stages.
  unfold recurring_frame; rewrite Hs; cbn [bind].
  rewrite (duplicated_Ok _ Hm); cbn [bind].
  rewrite (duplicated_select sorted) by (apply duplicated_Ok, Hm).
  rewrite groupby_diff_Ok by assumption; cbn [bind].
  unfold setitem; cbn [columns rows str_columns].
  rewrite annotate_assign, select_positive; eauto.
Qed.



(** ** Answers without findings, and rows without a date *)

(** An emitted row has a predecessor in its merchant partition. *)
Lemma hike_predecessor (path : string) (out : DataFrame) (e : Row) :
  find_subscription_leeches read_table parse_datetime path = Ok out ->
  In e (rows out) ->
  exists sorted before p r after,
    sorted_frame read_table parse_datetime path = Ok sorted
    /\ merchant_partition (at_ r "merchant") (rows sorted)
       = (before ++ p :: r :: after)%list
    /\ label e = label r.
Proof.
  intros Hout He.
  destruct (hike_origin _ _ _ _ _ Hout He)
    as (sorted & pre & r & post & Hs & Hsplit & Hpos & ->).
  destruct (delta_not_NaN _ _ (fgt_not_NaN _ _ Hpos))
    as (before & p & Hp & _).
  assert (Hrec : is_recurring (rows sorted) r = true).
  { assert (Hin : In r (filter (is_recurring (rows sorted)) (rows sorted))).
    { rewrite Hsplit; apply in_or_app; right; left; reflexivity. }
    apply filter_In in Hin; apply Hin. }
  exists sorted, before, p, r, (merchant_partition (at_ r "merchant") post).
  split; [exact Hs|]; split; [|reflexivity].
  rewrite <- (merchant_partition_recurring _ _ Hrec), Hsplit.
  rewrite merchant_partition_app, Hp, <- app_assoc; simpl.
  unfold merchant_partition at 2; simpl.
  rewrite value_eqb_refl; reflexivity.
Qed.

(** X7. When the engine succeeds, the answer is "No price hikes found."
    exactly when no row with a merchant has a number as its amount whose
    float64 difference with the number of the row before it in its
    merchant partition compares greater than zero. *)
Theorem X7_no_findings_exactly_when_no_increase
  (path : string) (out sorted : DataFrame) :
  find_subscription_leeches read_table parse_datetime path = Ok out ->
  sorted_frame read_table parse_datetime path = Ok sorted ->
  analyze_transactions read_table parse_datetime json_double json_string path
  = "No price hikes found."
  <-> (forall before p r after x y,
          merchant_partition (at_ r "merchant") (rows sorted)
          = (before ++ p :: r :: after)%list ->
          isna (at_ r "merchant") = false ->
          to_float (at_ p "amount") = Ok x ->
          to_float (at_ r "amount") = Ok y ->
          fgt (fsub y x) 0%Q = false).
Proof.
  intros Hout Hs.
  destruct (find_subscription_leeches_inv _ _ _ _ Hout)
    as (sorted' & _ & _ & Hc & _).
  unfold analyze_transactions; rewrite Hout, (empty_rows _ _ Hc).
  split.
  - intros Hans before p r after x y Hpart Hna Hx Hy.
    destruct (fgt (fsub y x) 0%Q) eqn:Hpos; [exfalso|reflexivity].
    pose proof (increase_is_emitted _ _ _ _ _ _ _ _ _ Hout Hs Hpart Hna
                  Hx Hy Hpos) as Hin.
    destruct (rows out); [destruct Hin|].
    unfold to_json in Hans; simpl in Hans; discriminate.
  - intros Hno.
    destruct (rows out) as [|e rest] eqn:Hr; [reflexivity|exfalso].
    assert (He : In e (rows out)) by (rewrite Hr; left; reflexivity).
    destruct (hike_predecessor _ _ _ Hout He)
      as (sorted'' & before & p & r & after & Hs'' & Hpart & Hlab).
    rewrite Hs in Hs''; inversion Hs''; subst sorted''; clear Hs''.
    destruct (emitted_is_increase _ _ _ _ _ _ _ _ Hout Hs Hpart He Hlab)
      as (Hna & x & y & Hx & Hy & Hpos & _).
    rewrite (Hno before p r after x y Hpart Hna Hx Hy) in Hpos.
    discriminate.
Qed.

Lemma to_timestamp_range (v w : value) :
  to_timestamp parse_datetime v = Ok w ->
  w = NaT \/ exists ns, w = Timestamp ns.
Proof.
  destruct v as [z|[s|s| |s m e]|s|s|ns|]; simpl; intros H;
    try (inversion H; eauto; fail);
    bind_inv H; inversion H; eauto.
Qed.

Lemma StronglySorted_app_In {A : Type} (R : A -> A -> Prop)
  (l1 l2 : list A) (x y : A) :
  StronglySorted R (l1 ++ x :: l2)%list -> In y l2 -> R x y.
Proof.
  induction l1 as [|a l1 IH]; simpl; intros H Hy;
    apply StronglySorted_inv in H; destruct H as [H Ha]; [|auto].
  rewrite Forall_forall in Ha; auto.
Qed.

(** X8. A row whose date is missing is kept, and in the sorted frame it
    stands after every dated row of its merchant: whatever follows it in
    its merchant partition has a missing date too. *)
Theorem X8_missing_dates_come_last
  (path : string) (sorted : DataFrame) (m : value) (l1 l2 : list Row)
  (x y : Row) :
  sorted_frame read_table parse_datetime path = Ok sorted ->
  merchant_partition m (rows sorted) = (l1 ++ x :: l2)%list ->
  In y l2 ->
  at_ x "date" = NaT ->
  at_ y "date" = NaT.
Proof.
  intros Hs Hpart Hy Hx.
  pose proof (sorted_frame_order _ _ _ _ Hs) as Hord.
  apply (StronglySorted_filter _
           (fun r0 => value_eqb (at_ r0 "merchant") m)) in Hord.
  fold (merchant_partition m (rows sorted)) in Hord.
  rewrite Hpart in Hord.
  destruct (StronglySorted_app_In _ _ _ _ _ Hord Hy) as [Hle _].
  assert (Hxm : In x (merchant_partition m (rows sorted)))
    by (rewrite Hpart; apply in_or_app; right; left; reflexivity).
  assert (Hym : In y (merchant_partition m (rows sorted)))
    by (rewrite Hpart; apply in_or_app; right; right; exact Hy).
  apply merchant_partition_In in Hxm, Hym.
  destruct Hxm as [_ Hxm]; destruct Hym as [Hyin Hym].
  rewrite rows_leb_same_merchant in Hle.
  2:{ apply (value_eqb_trans _ m); [exact Hxm|].
      rewrite value_eqb_sym; exact Hym. }
  destruct (sorted_frame_inv _ _ _ _ Hs)
    as (t & dl & Ht & _ & _ & _ & _ & _).
  destruct (sorted_frame_row _ _ _ Ht Hs) as [_ Hfrom].
  destruct (Hfrom y Hyin) as (r & _ & Hd).
  apply dated_date, to_timestamp_range in Hd.
  rewrite Hx in Hle.
  destruct Hd as [E|(ns & E)]; rewrite E in *; [reflexivity|discriminate].
Qed.

End Extras.

(** ** The columns the engine reads *)

Lemma Forall2_filter {A B : Type} (S : A -> B -> Prop) (f : A -> bool)
  (g : B -> bool) (l1 : list A) (l2 : list B) :
  (forall a b, S a b -> f a = g b) ->
  Forall2 S l1 l2 -> Forall2 S (filter f l1) (filter g l2).
Proof.
  intros Hfg; induction 1 as [|a b l1 l2 Hab _ IH]; simpl; [constructor|].
  rewrite (Hfg a b Hab); destruct (g b); [constructor|]; auto.
Qed.

Lemma Forall2_map {A B C D : Type} (S : A -> B -> Prop) (T : C -> D -> Prop)
  (f : A -> C) (g : B -> D) (l1 : list A) (l2 : list B) :
  (forall a b, S a b -> T (f a) (g b)) ->
  Forall2 S l1 l2 -> Forall2 T (map f l1) (map g l2).
Proof.
  intros Hfg; induction 1; simpl; constructor; auto.
Qed.

(** Frames that agree on their amounts give the amount column the same
    dtype. *)
Lemma amount_dtype_agree (l1 l2 : list Row) :
  Forall2 agree l1 l2 ->
  existsb (fun r => is_str (at_ r "amount")) l1
  = existsb (fun r => is_str (at_ r "amount")) l2.
Proof.
  induction 1 as [|a b l1 l2 (_ & _ & _ & Hab) _ IH]; simpl; [reflexivity|].
  rewrite Hab, IH; reflexivity.
Qed.

Lemma rows_leb_agree (a a' b b' : Row) :
  agree a a' -> agree b b' ->
  rows_leb ["merchant"; "date"] a b = rows_leb ["merchant"; "date"] a' b'.
Proof.
  intros (_ & Hd & Hm & _) (_ & Hd' & Hm' & _).
  apply rows_leb_ext; intros c [<-|[<-|[]]]; auto.
Qed.

Lemma insert_agree (x y : Row) (l1 l2 : list Row) :
  agree x y -> Forall2 agree l1 l2 ->
  Forall2 agree (insert (rows_leb ["merchant"; "date"]) x l1)
    (insert (rows_leb ["merchant"; "date"]) y l2).
Proof.
  intros Hxy; induction 1 as [|a b l1 l2 Hab Hl IH]; cbn [insert].
  - constructor; [exact Hxy|constructor].
  - rewrite (rows_leb_agree x y a b Hxy Hab).
    destruct (rows_leb ["merchant"; "date"] y b).
    + constructor; [exact Hxy|]; constructor; assumption.
    + constructor; assumption.
Qed.

Lemma lexsort_agree (l1 l2 : list Row) :
  Forall2 agree l1 l2 ->
  Forall2 agree (lexsort (rows_leb ["merchant"; "date"]) l1)
    (lexsort (rows_leb ["merchant"; "date"]) l2).
Proof.
  induction 1 as [|a b l1 l2 Hab _ IH]; cbn [lexsort fold_right];
    [constructor|].
  apply insert_agree; assumption.
Qed.

Lemma dated_agree (parse_datetime : DateParser) (r1 r2 r1' r2' : Row) :
  agree r1 r2 -> dated parse_datetime r1 r1' -> dated parse_datetime r2 r2' ->
  agree r1' r2'.
Proof.
  intros (Hl & Hd & Hm & Ha) H1 H2.
  pose proof (dated_date _ _ _ H1) as D1.
  pose proof (dated_date _ _ _ H2) as D2.
  rewrite Hd, D2 in D1; inversion D1 as [E].
  unfold agree.
  rewrite (dated_label _ _ _ H1), (dated_label _ _ _ H2).
  rewrite !(dated_at _ _ _ "merchant" H1), !(dated_at _ _ _ "merchant" H2),
    !(dated_at _ _ _ "amount" H1), !(dated_at _ _ _ "amount" H2)
    by discriminate.
  auto.
Qed.

Lemma dated_rows_agree (parse_datetime : DateParser)
  (l1 l2 dl1 dl2 : list Row) :
  Forall2 agree l1 l2 ->
  Forall2 (dated parse_datetime) l1 dl1 ->
  Forall2 (dated parse_datetime) l2 dl2 ->
  Forall2 agree dl1 dl2.
Proof.
  intros H; revert dl1 dl2; induction H as [|a b l1 l2 Hab _ IH];
    intros dl1 dl2 H1 H2; inversion H1; inversion H2; subst;
    constructor; eauto using dated_agree.
Qed.

Lemma is_recurring_agree (l1 l2 : list Row) (a b : Row) :
  Forall2 agree l1 l2 -> agree a b ->
  is_recurring l1 a = is_recurring l2 b.
Proof.
  intros Hl (_ & _ & Hab & _); unfold is_recurring; f_equal.
  induction Hl as [|x y l1 l2 (_ & _ & Hxy & _) _ IH]; simpl; [reflexivity|].
  assert (E : same_key "merchant" a x = same_key "merchant" b y)
    by (unfold same_key; rewrite Hxy, Hab; reflexivity).
  rewrite E; destruct (same_key "merchant" b y); simpl; rewrite IH;
    reflexivity.
Qed.

Lemma keyed_agree (a b : Row) : agree a b -> keyed a = keyed b.
Proof.
  intros (_ & _ & Hm & Ha); unfold keyed, amount_of; rewrite Hm, Ha.
  reflexivity.
Qed.

Lemma annotate_agree (seen1 seen2 l1 l2 : list Row) :
  Forall2 agree seen1 seen2 -> Forall2 agree l1 l2 ->
  Forall2 (fun x y : Row * float64 => agree (fst x) (fst y) /\ snd x = snd y)
    (annotate seen1 l1) (annotate seen2 l2).
Proof.
  intros Hseen Hl; revert seen1 seen2 Hseen.
  induction Hl as [|a b l1 l2 Hab _ IH]; simpl; intros seen1 seen2 Hseen;
    constructor.
  - split; [exact Hab|]; simpl.
    assert (E : map keyed seen1 = map keyed seen2).
    { clear -Hseen; induction Hseen as [|x y s1 s2 Hxy _ IHs]; simpl;
        [reflexivity|].
      rewrite (keyed_agree _ _ Hxy), IHs; reflexivity. }
    pose proof (keyed_agree _ _ Hab) as K; unfold keyed in K.
    inversion K as [[Km Ka]].
    unfold delta; rewrite E, Km, Ka; reflexivity.
  - apply IH; constructor; assumption.
Qed.

(** X10. The findings depend on the columns [date], [merchant] and
    [amount] only: when the rows of two tables agree on these three
    columns, position by position, and the first run succeeds, the second
    succeeds too and emits the rows with the same index labels, the same
    three entries and the same price changes, in the same order. *)
Theorem X10_only_three_columns_are_read
  (read1 read2 : string -> result Table) (parse_datetime : DateParser)
  (path1 path2 : string) (t1 t2 : Table) (out1 : DataFrame) :
  read1 path1 = Ok t1 ->
  read2 path2 = Ok t2 ->
  has_label "date" (header t2) = true ->
  has_label "merchant" (header t2) = true ->
  has_label "amount" (header t2) = true ->
  Forall2 agree (rows (frame_of_table t1)) (rows (frame_of_table t2)) ->
  find_subscription_leeches read1 parse_datetime path1 = Ok out1 ->
  exists out2,
    find_subscription_leeches read2 parse_datetime path2 = Ok out2
    /\ Forall2 (fun e1 e2 =>
                  agree e1 e2
                  /\ at_ e1 "price_change" = at_ e2 "price_change")
         (rows out1) (rows out2).
Proof.
  intros Ht1 Ht2 Hd2 Hm2 Ha2 Hagree Hout1.
  destruct (find_subscription_leeches_inv _ _ _ _ Hout1)
    as (sorted1 & Hs1 & Ha1 & _ & Hrows1).
  destruct (find_subscription_leeches_dtype _ _ _ _ Hout1)
    as (sorted1' & Hs1' & Hstr1 & _).
  rewrite Hs1 in Hs1'; inversion Hs1'; subst sorted1'; clear Hs1'.
  destruct (sorted_frame_inv _ _ _ _ Hs1)
    as (t1' & dl1 & Ht1' & Hc1 & _ & _ & Hdl1 & E1).
  rewrite Ht1 in Ht1'; inversion Ht1'; subst t1'; clear Ht1'.
  rewrite (sorted_frame_dtype _ _ _ _ _ "amount" Ht1 Hs1) in Hstr1
    by discriminate.
  rewrite Hc1 in Ha1; rewrite Ha1 in Hstr1; simpl in Hstr1.
  destruct (sorted_frame_row _ _ _ _ _ Ht1 Hs1) as [Hto1 _].
  destruct (traverse_all_Ok (to_timestamp parse_datetime)
              (map (fun r => at_ r "date") (rows (frame_of_table t2))))
    as (ds & Hds).
  { intros v Hv; apply in_map_iff in Hv; destruct Hv as (r2 & <- & Hr2).
    destruct (Forall2_In_r _ _ _ _ Hagree Hr2) as (r1 & Hr1 & (_ & E & _)).
    destruct (Hto1 r1 Hr1) as (r1' & _ & v & Hv & _).
    rewrite <- E; eauto. }
  destruct (sorted_frame_Ok read2 parse_datetime path2 t2 ds Ht2 Hd2 Hm2 Hds)
    as (sorted2 & Hs2 & Hc2).
  destruct (sorted_frame_inv _ _ _ _ Hs2)
    as (t2' & dl2 & Ht2' & _ & _ & _ & Hdl2 & E2).
  rewrite Ht2 in Ht2'; inversion Ht2'; subst t2'; clear Ht2'.
  assert (Hsame : Forall2 agree (rows sorted1) (rows sorted2)).
  { rewrite E1, E2; apply lexsort_agree.
    apply (dated_rows_agree parse_datetime _ _ _ _ Hagree Hdl1 Hdl2). }
  assert (Hrec : Forall2 agree
                   (filter (is_recurring (rows sorted1)) (rows sorted1))
                   (filter (is_recurring (rows sorted2)) (rows sorted2))).
  { apply Forall2_filter; [|exact Hsame].
    intros a b Hab; apply is_recurring_agree; assumption. }
  destruct (find_subscription_leeches_Ok read2 parse_datetime path2 sorted2
              Hs2) as (out2 & Hout2); try (rewrite Hc2; assumption).
  { rewrite (sorted_frame_dtype _ _ _ _ _ "amount" Ht2 Hs2) by discriminate.
    rewrite Ha2, <- (amount_dtype_agree _ _ Hagree); exact Hstr1. }
  { intros r2 Hr2.
    destruct (Forall2_In_r _ _ _ _ Hrec Hr2) as (r1 & Hr1 & (_ & _ & _ & E)).
    rewrite <- E.
    apply (recurring_rows_numeric _ _ _ _ _ _ Hout1 Hs1 Hr1). }
  exists out2; split; [exact Hout2|].
  destruct (find_subscription_leeches_inv _ _ _ _ Hout2)
    as (s2 & Hs2' & _ & _ & Hrows2).
  rewrite Hs2 in Hs2'; inversion Hs2'; subst s2; clear Hs2'.
  rewrite Hrows1, Hrows2.
  apply (Forall2_map (fun x y : Row * float64 =>
                        agree (fst x) (fst y) /\ snd x = snd y)).
  - intros x y [(Hl & Hd & Hm & Ha) Hsnd]; split.
    + unfold agree.
      rewrite !(at_with_price_change x), !(at_with_price_change y)
        by discriminate.
      auto.
    + unfold at_; rewrite !price_change_with_price_change, Hsnd.
      reflexivity.
  - apply Forall2_filter.
    + intros x y [_ ->]; reflexivity.
    + apply annotate_agree; [constructor|exact Hrec].
Qed.

(** * The further properties on the sample tables *)

(** An amount above the amount before it is not always a hike: from
    2 ^ 53 to 2 ^ 53 + 1 the float64 difference is zero. *)
Example large_step_result :
  run large_step = "No price hikes found."
  /\ fsub (double_of_Z 9007199254740993) (double_of_Z 9007199254740992)
     = S754_zero false.
Proof. split; vm_compute; reflexivity. Qed.


Lemma X2_scenario_A : isna (at_ scenario_A_hike "merchant") = false.
Proof.
  apply (X2_missing_merchant_never_emitted
           (single_file "tx.csv" scenario_A) iso_parse_datetime "tx.csv"
           scenario_A_hikes).
  - vm_compute; reflexivity.
  - left; reflexivity.
Defined.

Lemma X3_same_day :
  NoDup (map label (rows same_day_hikes))
  /\ forall e, In e (rows same_day_hikes) ->
               (label e < List.length (records same_day))%nat.
Proof.
  apply (X3_one_hike_per_record
           (single_file "tx.csv" same_day) iso_parse_datetime "tx.csv").
  - reflexivity.
  - vm_compute; reflexivity.
Defined.

Lemma X4_same_day :
  (List.length (merchant_partition (Str "A") (rows same_day_hikes))
   <= List.length
        (merchant_partition (Str "A") (rows (frame_of_table same_day))) - 1)%nat.
Proof.
  apply (X4_hikes_per_merchant_bound
           (single_file "tx.csv" same_day) iso_parse_datetime "tx.csv").
  - reflexivity.
  - vm_compute; reflexivity.
Defined.

Lemma X5_with_note :
  exists rec,
    nth_error (records with_note) (label with_note_hike) = Some rec
    /\ forall c, c <> "date" -> c <> "price_change" ->
                 at_ with_note_hike c
                 = at_ (raw_row with_note (label with_note_hike) rec) c.
Proof.
  apply (X5_hike_keeps_the_record_fields
           (single_file "tx.csv" with_note) iso_parse_datetime "tx.csv"
           with_note with_note_hikes with_note_hike).
  - reflexivity.
  - vm_compute; reflexivity.
  - left; reflexivity.
Defined.

Lemma X7_scenario_A :
  run scenario_A = "No price hikes found."
  <-> (forall before p r after x y,
          merchant_partition (at_ r "merchant") (rows scenario_A_sorted)
          = (before ++ p :: r :: after)%list ->
          isna (at_ r "merchant") = false ->
          to_float (at_ p "amount") = Ok x ->
          to_float (at_ r "amount") = Ok y ->
          fgt (fsub y x) 0%Q = false).
Proof.
  apply (X7_no_findings_exactly_when_no_increase
           (single_file "tx.csv" scenario_A) iso_parse_datetime
           decimal_json_double plain_json_string "tx.csv" scenario_A_hikes).
  - vm_compute; reflexivity.
  - vm_compute; reflexivity.
Defined.

Lemma X8_undated : at_ (undated_row 2 13) "date" = NaT.
Proof.
  apply (X8_missing_dates_come_last
           (single_file "tx.csv" undated) iso_parse_datetime "tx.csv"
           undated_sorted (Str "A")
           [dated_row 1 1705276800000000000 "A" 10] [undated_row 2 13]
           (undated_row 0 12)).
  - vm_compute; reflexivity.
  - vm_compute; reflexivity.
  - left; reflexivity.
  - reflexivity.
Defined.

Lemma X10_scenario_A_noted :
  exists out2,
    leeches_of scenario_A_noted = Ok out2
    /\ Forall2 (fun e1 e2 =>
                  agree e1 e2
                  /\ at_ e1 "price_change" = at_ e2 "price_change")
         (rows scenario_A_hikes) (rows out2).
Proof.
  apply (X10_only_three_columns_are_read
           (single_file "tx.csv" scenario_A)
           (single_file "tx.csv" scenario_A_noted) iso_parse_datetime
           "tx.csv" "tx.csv" scenario_A scenario_A_noted scenario_A_hikes).
  - reflexivity.
  - reflexivity.
  - reflexivity.
  - reflexivity.
  - reflexivity.
  - simpl; repeat (apply Forall2_cons; [repeat split|]); constructor.
  - vm_compute; reflexivity.
Defined.
